(** * sec-lab-bot: the authenticated request protocol of the lab-door client

    A shallow embedding of [sec-lab-bot.py]: the wire codec
    ([wire_encode_int], [wire_decode_int]), the request builder
    ([make_request]), the freshness check ([timestamp_verify]) and the
    request/response exchange ([ssl_request]), together with the parts of
    the Python runtime they rest on (int.to_bytes, int.from_bytes,
    base64.b64encode, hashlib.sha256, hmac, sockets, files, the clock).

    The rest of the program follows: the loading of the key
    ([read_key_from_file], base64.b64decode), the housekeeping of the log
    ([truncate_log]), the display loop ([ncurses_write], [main]) and the
    program from its start to its exit ([program]). *)

From Stdlib Require Import ZArith List String Ascii Bool Lia.
From Stdlib Require Import Strings.Byte QArith.
Import ListNotations.

Local Open Scope Z_scope.

(** ** Bytes *)

Definition bytes := list byte.

Definition byte_to_Z (b : byte) : Z := Z.of_N (Byte.to_N b).

Definition byte_of_Z (z : Z) : byte :=
  match Byte.of_N (Z.to_N z) with
  | Some b => b
  | None => x00
  end.

(** ** Python values and exceptions *)

(** The two kinds of object that reach [wire_encode_int]: an int, or the
    [None] that [make_request] leaves in [val] for an unknown request type. *)
Inductive pyobj :=
| PyNone
| PyInt (z : Z).

(** Operating-system level failures of sockets and files. *)
Inductive io_error :=
| ConnectionRefused
| ConnectionReset
| SocketTimeout
| SSLError
| PermissionDenied
| DiskFull.

(** The exception classes raised inside the program.  An OSError raised by
    open() carries the name of the file.  KeyboardInterrupt is what
    control-c raises in the running code. *)
Inductive exn :=
| AttributeError                 (* None has no attribute to_bytes *)
| OverflowError (msg : string)   (* int.to_bytes: value does not fit *)
| ValueError                     (* int.to_bytes: negative length *)
| OSError (e : io_error) (filename : option string)
                                 (* socket, TLS and file failures *)
| PlainException (msg : string)  (* raise Exception(msg) *)
| KeyboardInterrupt.

(** isinstance(e, Exception): every class above derives from Exception
    except KeyboardInterrupt, which derives from BaseException only. *)
Definition is_Exception (e : exn) : bool :=
  match e with
  | AttributeError => true
  | OverflowError _ => true
  | ValueError => true
  | OSError _ _ => true
  | PlainException _ => true
  | KeyboardInterrupt => false
  end.

Definition str_io_error (e : io_error) : string :=
  match e with
  | ConnectionRefused => "[Errno 111] Connection refused"
  | ConnectionReset => "[Errno 104] Connection reset by peer"
  | SocketTimeout => "timed out"
  | SSLError => "[SSL] error"
  | PermissionDenied => "[Errno 13] Permission denied"
  | DiskFull => "[Errno 28] No space left on device"
  end.

(** str(e) *)
Definition str_exn (e : exn) : string :=
  match e with
  | AttributeError => "'NoneType' object has no attribute 'to_bytes'"
  | OverflowError msg => msg
  | ValueError => "length argument must be non-negative"
  | OSError e None => str_io_error e
  | OSError e (Some filename) => str_io_error e ++ ": '" ++ filename ++ "'"
  | PlainException msg => msg
  | KeyboardInterrupt => EmptyString
  end.

Inductive result (A : Type) :=
| Ok (a : A)
| Raise (e : exn).
Arguments Ok {A} a.
Arguments Raise {A} e.

(** ** int.to_bytes and int.from_bytes, byteorder='little' *)

Definition BYTE_ORDER : string := "little".

(** The [n] low-order bytes of [z], least significant first; for a negative
    [z] floor division and modulo give the two's complement digits. *)
Fixpoint le_bytes (n : nat) (z : Z) : bytes :=
  match n with
  | O => []
  | S n' => byte_of_Z (z mod 256) :: le_bytes n' (z / 256)
  end.

Fixpoint le_value (data : bytes) : Z :=
  match data with
  | [] => 0
  | b :: rest => byte_to_Z b + 256 * le_value rest
  end.

(** [v] is representable in [size] bytes: 0 <= v < 256^size unsigned,
    -256^size/2 <= v < 256^size/2 signed (written without the division, so
    that at size 0 exactly 0 is representable in both cases). *)
Definition representable (v size : Z) (sgn : bool) : Prop :=
  0 <= size /\
  if sgn then - 2 ^ (8 * size) <= 2 * v < 2 ^ (8 * size)
  else 0 <= v < 2 ^ (8 * size).

(** The values CPython's int.to_bytes converts.  The sign bit is checked
    only when the length is positive, so at length 0 a signed -1 (no
    magnitude bits) is converted as well. *)
Definition to_bytes_accepts (z size : Z) (sgn : bool) : bool :=
  if sgn then
    if size =? 0 then (z =? 0) || (z =? -1)
    else (- 2 ^ (8 * size - 1) <=? z) && (z <? 2 ^ (8 * size - 1))
  else (0 <=? z) && (z <? 2 ^ (8 * size)).

(** z.to_bytes(size, byteorder='little', signed=sgn) *)
Definition int_to_bytes (z size : Z) (sgn : bool) : result bytes :=
  if size <? 0 then Raise ValueError
  else if negb sgn && (z <? 0) then
    Raise (OverflowError "can't convert negative int to unsigned")
  else if to_bytes_accepts z size sgn then Ok (le_bytes (Z.to_nat size) z)
  else Raise (OverflowError "int too big to convert").

(** int.from_bytes(data, byteorder='little', signed=sgn); defined on every
    byte string, the empty one included. *)
Definition int_from_bytes (data : bytes) (sgn : bool) : Z :=
  let u := le_value data in
  let bits := 8 * Z.of_nat (List.length data) in
  if sgn && Z.testbit u (bits - 1) then u - 2 ^ bits else u.

(** ** Wire codec (lines 84-91) *)

Definition wire_decode_int (data : bytes) (sgn : bool) : Z :=
  int_from_bytes data sgn.

Definition wire_encode_int (i : pyobj) (size : Z) (sgn : bool) : result bytes :=
  match i with
  | PyNone => Raise AttributeError
  | PyInt z => int_to_bytes z size sgn
  end.

(** ** base64.b64encode (RFC 4648, standard alphabet, with padding) *)

Definition b64_alphabet : bytes :=
  list_byte_of_string
    "ABCDEFGHIJKLMNOPQRSTUVWXYZabcdefghijklmnopqrstuvwxyz0123456789+/".

Definition b64_pad : byte := "="%byte.

Definition b64_sextet (z : Z) : byte :=
  nth (Z.to_nat (z mod 64)) b64_alphabet b64_pad.

Fixpoint b64e (data : bytes) : bytes :=
  match data with
  | [] => []
  | [a] =>
      let n := byte_to_Z a * 16 in
      [b64_sextet (n / 64); b64_sextet n; b64_pad; b64_pad]
  | [a; b] =>
      let n := (byte_to_Z a * 256 + byte_to_Z b) * 4 in
      [b64_sextet (n / 4096); b64_sextet (n / 64); b64_sextet n; b64_pad]
  | a :: b :: c :: rest =>
      let n := (byte_to_Z a * 256 + byte_to_Z b) * 256 + byte_to_Z c in
      b64_sextet (n / 262144) :: b64_sextet (n / 4096) ::
      b64_sextet (n / 64) :: b64_sextet n :: b64e rest
  end.

(** ** hashlib.sha256 (FIPS 180-4) on 32-bit words held in Z *)

Module SHA256.

Definition add32 (x y : Z) : Z := (x + y) mod 2 ^ 32.
Definition not32 (x : Z) : Z := Z.lxor x (2 ^ 32 - 1).
Definition rotr (n x : Z) : Z :=
  Z.lor (Z.shiftr x n) (Z.shiftl x (32 - n) mod 2 ^ 32).

Definition choose (x y z : Z) : Z :=
  Z.lxor (Z.land x y) (Z.land (not32 x) z).
Definition majority (x y z : Z) : Z :=
  Z.lxor (Z.lxor (Z.land x y) (Z.land x z)) (Z.land y z).
Definition big_sigma0 (x : Z) : Z :=
  Z.lxor (Z.lxor (rotr 2 x) (rotr 13 x)) (rotr 22 x).
Definition big_sigma1 (x : Z) : Z :=
  Z.lxor (Z.lxor (rotr 6 x) (rotr 11 x)) (rotr 25 x).
Definition small_sigma0 (x : Z) : Z :=
  Z.lxor (Z.lxor (rotr 7 x) (rotr 18 x)) (Z.shiftr x 3).
Definition small_sigma1 (x : Z) : Z :=
  Z.lxor (Z.lxor (rotr 17 x) (rotr 19 x)) (Z.shiftr x 10).

(** The round constants are the first 32 fractional bits of the cube roots
    of the first 64 primes, the initial hash value those of the square
    roots of the first 8; both tables are computed from that definition. *)
Fixpoint no_divisor_upto (d : nat) (n : Z) : bool :=
  match d with
  | O => true
  | S d' =>
      match d' with
      | O => true
      | S _ => negb (n mod Z.of_nat d =? 0) && no_divisor_upto d' n
      end
  end.

Definition is_prime (n : Z) : bool :=
  (2 <=? n) && no_divisor_upto (Z.to_nat (n - 1)) n.

Definition first_primes (k : nat) : list Z :=
  firstn k (filter is_prime (map Z.of_nat (seq 2 310))).

Fixpoint icbrt_bits (bits : nat) (n r : Z) : Z :=
  match bits with
  | O => r
  | S b =>
      let c := r + 2 ^ Z.of_nat b in
      icbrt_bits b n (if c * c * c <=? n then c else r)
  end.

Definition icbrt (n : Z) : Z := icbrt_bits 40 n 0.

Definition round_constants : list Z :=
  Eval vm_compute in
    map (fun p => icbrt (p * 2 ^ 96) mod 2 ^ 32) (first_primes 64).

Record regs := mk_regs {
  ra : Z; rb : Z; rc : Z; rd : Z; re : Z; rf : Z; rg : Z; rh : Z
}.

Definition frac_sqrt (p : Z) : Z := Z.sqrt (p * 2 ^ 64) mod 2 ^ 32.

Definition initial_hash : regs :=
  Eval vm_compute in
    mk_regs (frac_sqrt 2) (frac_sqrt 3) (frac_sqrt 5) (frac_sqrt 7)
            (frac_sqrt 11) (frac_sqrt 13) (frac_sqrt 17) (frac_sqrt 19).

Definition be_bytes (n : nat) (z : Z) : bytes := rev (le_bytes n z).
Definition be_value (data : bytes) : Z := le_value (rev data).

(** Padding: a 1 bit, zero bits up to 56 mod 64 bytes, the bit length on 8
    bytes. *)
Definition pad (msg : bytes) : bytes :=
  let len := Z.of_nat (List.length msg) in
  msg ++ [x80] ++ repeat x00 (Z.to_nat ((55 - len) mod 64))
      ++ be_bytes 8 (8 * len).

Fixpoint blocks (fuel : nat) (data : bytes) : list bytes :=
  match fuel with
  | O => []
  | S fuel' =>
      match data with
      | [] => []
      | _ => firstn 64 data :: blocks fuel' (skipn 64 data)
      end
  end.

Fixpoint be_words (n : nat) (data : bytes) : list Z :=
  match n with
  | O => []
  | S n' => be_value (firstn 4 data) :: be_words n' (skipn 4 data)
  end.

(** Message schedule; [recent] holds the words so far, newest first. *)
Fixpoint extend (n : nat) (recent : list Z) : list Z :=
  match n with
  | O => recent
  | S n' =>
      let w := add32 (add32 (small_sigma1 (nth 1 recent 0)) (nth 6 recent 0))
                     (add32 (small_sigma0 (nth 14 recent 0)) (nth 15 recent 0)) in
      extend n' (w :: recent)
  end.

Definition schedule (block : bytes) : list Z :=
  rev (extend 48 (rev (be_words 16 block))).

Definition round (s : regs) (kw : Z * Z) : regs :=
  let t1 := add32 (add32 (add32 (add32 (rh s) (big_sigma1 (re s)))
                                (choose (re s) (rf s) (rg s)))
                         (fst kw))
                  (snd kw) in
  let t2 := add32 (big_sigma0 (ra s)) (majority (ra s) (rb s) (rc s)) in
  mk_regs (add32 t1 t2) (ra s) (rb s) (rc s)
          (add32 (rd s) t1) (re s) (rf s) (rg s).

Definition compress (s : regs) (block : bytes) : regs :=
  let t := fold_left round (combine round_constants (schedule block)) s in
  mk_regs (add32 (ra s) (ra t)) (add32 (rb s) (rb t))
          (add32 (rc s) (rc t)) (add32 (rd s) (rd t))
          (add32 (re s) (re t)) (add32 (rf s) (rf t))
          (add32 (rg s) (rg t)) (add32 (rh s) (rh t)).

Definition digest_of (s : regs) : bytes :=
  be_bytes 4 (ra s) ++ be_bytes 4 (rb s) ++ be_bytes 4 (rc s) ++
  be_bytes 4 (rd s) ++ be_bytes 4 (re s) ++ be_bytes 4 (rf s) ++
  be_bytes 4 (rg s) ++ be_bytes 4 (rh s).

Definition sha256 (msg : bytes) : bytes :=
  let padded := pad msg in
  digest_of (fold_left compress (blocks (List.length padded) padded)
                       initial_hash).

Definition block_size : nat := 64.

End SHA256.

(** ** hmac.new(key, msg, digestmod=hashlib.sha256).digest() (RFC 2104) *)

Definition xor_byte (a b : byte) : byte :=
  byte_of_Z (Z.lxor (byte_to_Z a) (byte_to_Z b)).

Definition hmac_sha256 (key msg : bytes) : bytes :=
  let k0 := if (SHA256.block_size <? List.length key)%nat
            then SHA256.sha256 key else key in
  let k := k0 ++ repeat x00 (SHA256.block_size - List.length k0) in
  let inner := SHA256.sha256 (map (xor_byte x36) k ++ msg) in
  SHA256.sha256 (map (xor_byte x5c) k ++ inner).

(** Lower-case hexadecimal rendering, for stating known digests. *)
Definition hex_digit (z : Z) : ascii :=
  nth (Z.to_nat z) (list_ascii_of_string "0123456789abcdef") "0"%char.

Fixpoint hex (data : bytes) : string :=
  match data with
  | [] => EmptyString
  | b :: rest =>
      String (hex_digit (byte_to_Z b / 16))
             (String (hex_digit (byte_to_Z b mod 16)) (hex rest))
  end.

Definition ascii_bytes (s : string) : bytes := list_byte_of_string s.

(** ** The world the program runs in

    Everything outside the interpreter that the exchange touches: the module
    global [KEY] (read from the key file once, at import), the key file, the
    clock, the peer behind the socket, and the log. *)

(** What stops a call on the socket: a failure reported by the operating
    system or the TLS layer, or control-c arriving while the call is under
    way. *)
Inductive fault :=
| Fails (e : io_error)
| Interrupted.

Definition exn_of_fault (f : fault) : exn :=
  match f with
  | Fails e => OSError e None
  | Interrupted => KeyboardInterrupt
  end.

(** What the peer delivers on a connection: data arriving in chunks (a
    [recv] returns at most one chunk's worth) or a read that is stopped. *)
Inductive event :=
| Chunk (data : bytes)
| RecvFails (f : fault).

(** The behaviour of one connection, from [ssl_wrap_socket] to close. *)
Record conn_script := mk_conn {
  wrap_error : option fault;
  connect_error : option fault;
  send_error : option fault;
  incoming : list event
}.

(** How open(KEY_FILE, 'wb') followed by f.write behaves: [OpenFails] leaves
    the file as it was; [WriteFails n] has truncated it and stored only the
    first [n] bytes when the error is raised. *)
Inductive file_behaviour :=
| WriteOk
| OpenFails (e : io_error)
| WriteFails (written : nat) (e : io_error).

Inductive level := INFO | WARNING.

Record world := mk_world {
  KEY : bytes;                      (* line 63 *)
  key_file : bytes;                 (* contents of ./psk.b64 *)
  key_file_io : file_behaviour;
  clock : nat -> Q;                 (* the n-th reading of time.time() *)
  ticks : nat;                      (* readings taken so far *)
  asctime : string;                 (* time.asctime() *)
  conns : list conn_script;         (* current connection first *)
  wire : list bytes;                (* messages given to sendall, newest first *)
  logbook : list (level * string)   (* newest first *)
}.

Definition set_key_file (v : bytes) (w : world) : world :=
  mk_world (KEY w) v (key_file_io w) (clock w) (ticks w) (asctime w)
           (conns w) (wire w) (logbook w).
Definition set_key_file_io (v : file_behaviour) (w : world) : world :=
  mk_world (KEY w) (key_file w) v (clock w) (ticks w) (asctime w)
           (conns w) (wire w) (logbook w).
Definition set_ticks (v : nat) (w : world) : world :=
  mk_world (KEY w) (key_file w) (key_file_io w) (clock w) v (asctime w)
           (conns w) (wire w) (logbook w).
Definition set_conns (v : list conn_script) (w : world) : world :=
  mk_world (KEY w) (key_file w) (key_file_io w) (clock w) (ticks w)
           (asctime w) v (wire w) (logbook w).
Definition set_wire (v : list bytes) (w : world) : world :=
  mk_world (KEY w) (key_file w) (key_file_io w) (clock w) (ticks w)
           (asctime w) (conns w) v (logbook w).
Definition set_logbook (v : list (level * string)) (w : world) : world :=
  mk_world (KEY w) (key_file w) (key_file_io w) (clock w) (ticks w)
           (asctime w) (conns w) (wire w) v.

(** ** Computations: state passing with Python exceptions *)

Definition M (A : Type) : Type := world -> result A * world.

Definition ret {A} (a : A) : M A := fun w => (Ok a, w).
Definition raise {A} (e : exn) : M A := fun w => (Raise e, w).
Definition bind {A B} (c : M A) (k : A -> M B) : M B :=
  fun w =>
    match c w with
    | (Ok a, w') => k a w'
    | (Raise e, w') => (Raise e, w')
    end.
Definition lift {A} (r : result A) : M A := fun w => (r, w).

(** try: body / except Exception as e: handler(e) *)
Definition try_except_Exception {A} (body : M A) (handler : exn -> M A) : M A :=
  fun w =>
    match body w with
    | (Ok a, w') => (Ok a, w')
    | (Raise e, w') => if is_Exception e then handler e w' else (Raise e, w')
    end.

Declare Scope py_scope.
Delimit Scope py_scope with py.
Notation "x <- c ;; k" := (bind c (fun x => k))
  (at level 61, c at next level, right associativity) : py_scope.
Notation "c ;; k" := (bind c (fun _ => k))
  (at level 61, right associativity) : py_scope.
Local Open Scope py_scope.

(** ** Runtime primitives *)

(** time.time() *)
Definition time_time : M Q :=
  fun w => (Ok (clock w (ticks w)), set_ticks (S (ticks w)) w).

(** float.__trunc__: rounding toward zero *)
Definition trunc (q : Q) : Z := Z.quot (Qnum q) (Zpos (Qden q)).

Definition logging_info (msg : string) : M unit :=
  fun w => (Ok tt, set_logbook ((INFO, msg) :: logbook w) w).
Definition logging_warning (msg : string) : M unit :=
  fun w => (Ok tt, set_logbook ((WARNING, msg) :: logbook w) w).

(** With no connection scripted the peer is unreachable. *)
Definition unreachable : conn_script :=
  mk_conn None (Some (Fails ConnectionRefused)) None [].

Definition current_conn (w : world) : conn_script := hd unreachable (conns w).

Definition set_incoming (evs : list event) (w : world) : world :=
  match conns w with
  | [] => w
  | c :: rest =>
      set_conns (mk_conn (wrap_error c) (connect_error c) (send_error c) evs
                 :: rest) w
  end.

(** conn.connect((SOCKET_HOST, SOCKET_PORT)), TLS handshake included *)
Definition conn_connect : M unit :=
  fun w =>
    match connect_error (current_conn w) with
    | Some f => (Raise (exn_of_fault f), w)
    | None => (Ok tt, w)
    end.

(** conn.sendall(data) *)
Definition conn_sendall (data : bytes) : M unit :=
  fun w =>
    match send_error (current_conn w) with
    | Some f => (Raise (exn_of_fault f), w)
    | None => (Ok tt, set_wire (data :: wire w) w)
    end.

(** What a read of at most [n] bytes finds on the stream: part of the next
    chunk, the failure the peer or the path causes (or the control-c that
    ends the wait), or the empty byte string once the peer has closed. *)
Definition read_chunk (n : nat) (evs : list event) : result bytes * list event :=
  match evs with
  | [] => (Ok [], [])
  | RecvFails f :: later => (Raise (exn_of_fault f), later)
  | Chunk data :: later =>
      (Ok (firstn n data),
       match skipn n data with
       | [] => later
       | rest => Chunk rest :: later
       end)
  end.

(** conn.recv(n) *)
Definition conn_recv (n : nat) : M bytes :=
  fun w =>
    let (r, evs) := read_chunk n (incoming (current_conn w)) in
    (r, set_incoming evs w).

(** with ssl_wrap_socket(socket.socket(...)) as conn: body -- the socket is
    closed on the way out, whether [body] returned or raised. *)
Definition with_ssl_socket {A} (body : M A) : M A :=
  fun w =>
    match wrap_error (current_conn w) with
    | Some f => (Raise (exn_of_fault f), set_conns (tl (conns w)) w)
    | None => let (r, w') := body w in (r, set_conns (tl (conns w')) w')
    end.

(** ** The program (sec-lab-bot.py) *)

Definition KEY_FILE : string := "./psk.b64".

Definition MAX_AGE : Z := 10.

Definition FLAG_OPEN_REQ : Z := 0xFF.
Definition FLAG_CLOSE_REQ : Z := 0x00.
Definition FLAG_KEYGEN_REQ : Z := 0xAA.
Definition FLAG_ALL_GOOD : Z := 0xFF.
Definition FLAG_KEYGEN_ACK : Z := 0x55.

Definition EXIT_SUCCESS : bool := true.
Definition EXIT_FAILURE : bool := false.

(** Lines 57-60. *)
Definition write_key_to_file (key : bytes) : M unit :=
  fun w =>
    let data := b64e key in
    match key_file_io w with
    | WriteOk => (Ok tt, set_key_file data w)
    | OpenFails e => (Raise (OSError e (Some KEY_FILE)), w)
    | WriteFails n e => (Raise (OSError e None), set_key_file (firstn n data) w)
    end.

(** Lines 94-96. *)
Definition timestamp : M Z :=
  t <- time_time ;; ret (trunc t).

(** Lines 99-101. *)
Definition timestamp_bytes : M bytes :=
  t <- timestamp ;; lift (wire_encode_int (PyInt t) 8 true).

(** Lines 104-106. *)
Definition timestamp_verify (tdata : bytes) : M bool :=
  now <- timestamp ;; ret (now - wire_decode_int tdata true <=? MAX_AGE).

Definition tab : string := String (ascii_of_nat 9) EmptyString.

(** Lines 133-135. *)
Definition log (s : string) : M string :=
  fun w => (Ok (tab ++ "[" ++ asctime w ++ "]" ++ tab ++ s)%string, w).

(** Lines 138-152. *)
Definition make_request (reqtype : string) : M bytes :=
  let data : bytes := [] in
  let val := PyNone in
  let val :=
    if (reqtype =? "open")%string then PyInt FLAG_OPEN_REQ
    else if (reqtype =? "close")%string then PyInt FLAG_CLOSE_REQ
    else if (reqtype =? "keygen")%string then PyInt FLAG_KEYGEN_REQ
    else val in
  flag <- lift (wire_encode_int val 1 false) ;;
  let data := data ++ flag in
  ts <- timestamp_bytes ;;
  let data := data ++ ts in
  fun w =>
    let mac := hmac_sha256 (KEY w) data in
    (Ok (data ++ mac), w).

(** reqtype in [...] *)
Fixpoint str_in (s : string) (l : list string) : bool :=
  match l with
  | [] => false
  | x :: rest => (s =? x)%string || str_in s rest
  end.

(** Lines 116-126: the body of the with statement. *)
Definition exchange (reqtype : string) : M unit :=
  conn_connect ;;
  req <- make_request reqtype ;;
  conn_sendall req ;;
  if str_in reqtype ["open"; "close"]%string then
    status <- conn_recv 1 ;;
    if negb (wire_decode_int status false =? FLAG_ALL_GOOD)
    then raise (PlainException "client received bad response")
    else ret tt
  else if str_in reqtype ["keygen"%string] then
    ack <- conn_recv 1 ;;
    (if negb (wire_decode_int ack false =? FLAG_KEYGEN_ACK)
     then raise (PlainException "client received bad response")
     else ret tt) ;;
    tdata <- conn_recv 8 ;;
    fresh <- timestamp_verify tdata ;;
    (if negb fresh
     then raise (PlainException "client received stale response")
     else ret tt) ;;
    new_key <- conn_recv 32 ;;
    write_key_to_file new_key
  else ret tt.

(** Lines 109-130. *)
Definition ssl_request (reqtype : string) : M bool :=
  msg <- log ("client sent " ++ reqtype ++ " request") ;;
  logging_info msg ;;
  try_except_Exception
    (with_ssl_socket (exchange reqtype) ;;
     ret EXIT_SUCCESS)
    (fun e =>
       msg <- log (str_exn e ++ " during " ++ reqtype ++ " request") ;;
       logging_warning msg ;;
       ret EXIT_FAILURE).

(** A run of requests, as the process issues them one after the other
    (line 234, then lines 183 and 188 on each key press). *)
Fixpoint ssl_requests (reqtypes : list string) : M (list bool) :=
  match reqtypes with
  | [] => ret []
  | r :: rest =>
      b <- ssl_request r ;;
      bs <- ssl_requests rest ;;
      ret (b :: bs)
  end.

(** * The vocabulary of the statements *)

(** The request kinds of the protocol, with the request-type string the
    program uses for each and the flag byte the protocol assigns to it. *)
Inductive RequestKind := Open | Close | KeyRotation.

Definition reqtype_of (k : RequestKind) : string :=
  match k with
  | Open => "open"
  | Close => "close"
  | KeyRotation => "keygen"
  end.

Definition flag_byte (k : RequestKind) : byte :=
  match k with
  | Open => xff
  | Close => x00
  | KeyRotation => xaa
  end.

(** The integer second the clock shows at its next reading: the one that
    stamps the request. *)
Definition next_timestamp (w : world) : Z := trunc (clock w (ticks w)).

(** The second it shows at the reading after that: the one the response
    timestamp of a key rotation is checked against. *)
Definition verify_time (w : world) : Z := trunc (clock w (S (ticks w))).

Definition request_bytes (k : RequestKind) (w : world) : bytes :=
  flag_byte k :: le_bytes 8 (next_timestamp w) ++
  hmac_sha256 (KEY w) (flag_byte k :: le_bytes 8 (next_timestamp w)).

Definition bad_response : exn :=
  PlainException "client received bad response".
Definition stale_response : exn :=
  PlainException "client received stale response".

(** What the peer's reply leads to once an open or close request is sent. *)
Inductive toggle_reply (evs : list event) : result unit -> Prop :=
| status_read_fails e later :
    read_chunk 1 evs = (Raise e, later) ->
    toggle_reply evs (Raise e)
| status_bad status later :
    read_chunk 1 evs = (Ok status, later) ->
    wire_decode_int status false <> FLAG_ALL_GOOD ->
    toggle_reply evs (Raise bad_response)
| status_good status later :
    read_chunk 1 evs = (Ok status, later) ->
    wire_decode_int status false = FLAG_ALL_GOOD ->
    toggle_reply evs (Ok tt).

(** What it leads to once a keygen request is sent: the result, the key
    file, and the number of clock readings taken after the request's. *)
Inductive keygen_reply (w : world) (evs : list event) :
  result unit -> bytes -> nat -> Prop :=
| ack_read_fails e later :
    read_chunk 1 evs = (Raise e, later) ->
    keygen_reply w evs (Raise e) (key_file w) 0
| ack_bad ack later :
    read_chunk 1 evs = (Ok ack, later) ->
    wire_decode_int ack false <> FLAG_KEYGEN_ACK ->
    keygen_reply w evs (Raise bad_response) (key_file w) 0
| timestamp_read_fails ack evs1 e later :
    read_chunk 1 evs = (Ok ack, evs1) ->
    wire_decode_int ack false = FLAG_KEYGEN_ACK ->
    read_chunk 8 evs1 = (Raise e, later) ->
    keygen_reply w evs (Raise e) (key_file w) 0
| timestamp_stale ack evs1 tdata later :
    read_chunk 1 evs = (Ok ack, evs1) ->
    wire_decode_int ack false = FLAG_KEYGEN_ACK ->
    read_chunk 8 evs1 = (Ok tdata, later) ->
    MAX_AGE < verify_time w - wire_decode_int tdata true ->
    keygen_reply w evs (Raise stale_response) (key_file w) 1
| key_read_fails ack evs1 tdata evs2 e later :
    read_chunk 1 evs = (Ok ack, evs1) ->
    wire_decode_int ack false = FLAG_KEYGEN_ACK ->
    read_chunk 8 evs1 = (Ok tdata, evs2) ->
    verify_time w - wire_decode_int tdata true <= MAX_AGE ->
    read_chunk 32 evs2 = (Raise e, later) ->
    keygen_reply w evs (Raise e) (key_file w) 1
| key_received ack evs1 tdata evs2 new_key later r kf :
    read_chunk 1 evs = (Ok ack, evs1) ->
    wire_decode_int ack false = FLAG_KEYGEN_ACK ->
    read_chunk 8 evs1 = (Ok tdata, evs2) ->
    verify_time w - wire_decode_int tdata true <= MAX_AGE ->
    read_chunk 32 evs2 = (Ok new_key, later) ->
    (r, kf) = match key_file_io w with
              | WriteOk => (Ok tt, b64e new_key)
              | OpenFails e => (Raise (OSError e (Some KEY_FILE)), key_file w)
              | WriteFails n e =>
                  (Raise (OSError e None), firstn n (b64e new_key))
              end ->
    keygen_reply w evs r kf 1.

(** The paths through lines 113-126: the result of the with statement, the
    key file, the clock readings taken and the messages sent. *)
Inductive exchange_path (reqtype : string) (w : world) :
  result unit -> bytes -> nat -> list bytes -> Prop :=
| wrap_fails f :
    wrap_error (current_conn w) = Some f ->
    exchange_path reqtype w (Raise (exn_of_fault f)) (key_file w) 0 []
| connect_fails f :
    wrap_error (current_conn w) = None ->
    connect_error (current_conn w) = Some f ->
    exchange_path reqtype w (Raise (exn_of_fault f)) (key_file w) 0 []
| kind_unknown :
    wrap_error (current_conn w) = None ->
    connect_error (current_conn w) = None ->
    (forall k, reqtype <> reqtype_of k) ->
    exchange_path reqtype w (Raise AttributeError) (key_file w) 0 []
| timestamp_overflows k e :
    wrap_error (current_conn w) = None ->
    connect_error (current_conn w) = None ->
    reqtype = reqtype_of k ->
    wire_encode_int (PyInt (next_timestamp w)) 8 true = Raise e ->
    exchange_path reqtype w (Raise e) (key_file w) 1 []
| send_fails k f :
    wrap_error (current_conn w) = None ->
    connect_error (current_conn w) = None ->
    reqtype = reqtype_of k ->
    - 2 ^ 63 <= next_timestamp w < 2 ^ 63 ->
    send_error (current_conn w) = Some f ->
    exchange_path reqtype w (Raise (exn_of_fault f)) (key_file w) 1 []
| toggle_sent k r :
    wrap_error (current_conn w) = None ->
    connect_error (current_conn w) = None ->
    reqtype = reqtype_of k ->
    - 2 ^ 63 <= next_timestamp w < 2 ^ 63 ->
    send_error (current_conn w) = None ->
    k <> KeyRotation ->
    toggle_reply (incoming (current_conn w)) r ->
    exchange_path reqtype w r (key_file w) 1 [request_bytes k w]
| keygen_sent r kf n :
    wrap_error (current_conn w) = None ->
    connect_error (current_conn w) = None ->
    reqtype = reqtype_of KeyRotation ->
    - 2 ^ 63 <= next_timestamp w < 2 ^ 63 ->
    send_error (current_conn w) = None ->
    keygen_reply w (incoming (current_conn w)) r kf n ->
    exchange_path reqtype w r kf (S n) [request_bytes KeyRotation w].

(** The two log lines of lines 111 and 129. *)
Definition sent_line (reqtype : string) (w : world) : level * string :=
  (INFO, (tab ++ "[" ++ asctime w ++ "]" ++ tab ++
          "client sent " ++ reqtype ++ " request")%string).

Definition failed_line (reqtype : string) (w : world) (e : exn) : level * string :=
  (WARNING, (tab ++ "[" ++ asctime w ++ "]" ++ tab ++
             str_exn e ++ " during " ++ reqtype ++ " request")%string).

(** The world a request leaves behind: the connection is gone, the log has
    one more line, and a second one when an Exception was caught. *)
Definition world_after (reqtype : string) (w : world) (r : result unit)
           (kf : bytes) (n : nat) (sent : list bytes) : world :=
  mk_world (KEY w) kf (key_file_io w) (clock w) (n + ticks w) (asctime w)
           (tl (conns w)) (sent ++ wire w)
           (match r with
            | Ok _ => [sent_line reqtype w]
            | Raise e =>
                if is_Exception e
                then [failed_line reqtype w e; sent_line reqtype w]
                else [sent_line reqtype w]
            end ++ logbook w).

(** What the try statement of lines 112-130 makes of the result of its
    with statement. *)
Definition request_result (r : result unit) : result bool :=
  match r with
  | Ok _ => Ok EXIT_SUCCESS
  | Raise e => if is_Exception e then Ok EXIT_FAILURE else Raise e
  end.

(** Control-c is set to arrive during one of the calls on this
    connection. *)
Definition interrupted (c : conn_script) : Prop :=
  wrap_error c = Some Interrupted \/
  connect_error c = Some Interrupted \/
  send_error c = Some Interrupted \/
  In (RecvFails Interrupted) (incoming c).

(** The reply that validates an exchange, in the words of the protocol: for
    open and close the status byte is the all-good sentinel 0xFF; for keygen
    the ack byte is the keygen-ack sentinel 0x55 and the timestamp read next
    is at most MAX_AGE seconds older than the clock. *)
Definition validated (reqtype : string) (w : world) : Prop :=
  let evs := incoming (current_conn w) in
  ((reqtype = "open"%string \/ reqtype = "close"%string) /\
   exists later, read_chunk 1 evs = (Ok [xff], later)) \/
  (reqtype = "keygen"%string /\
   exists evs1 tdata evs2,
     read_chunk 1 evs = (Ok [x55], evs1) /\
     read_chunk 8 evs1 = (Ok tdata, evs2) /\
     verify_time w - wire_decode_int tdata true <= MAX_AGE).

(** The key the peer sent in a key-rotation exchange: what the third read
    returned. *)
Definition received_key (w : world) (new_key : bytes) : Prop :=
  exists evs1 tdata evs2 later,
    read_chunk 1 (incoming (current_conn w)) = (Ok [x55], evs1) /\
    read_chunk 8 evs1 = (Ok tdata, evs2) /\
    read_chunk 32 evs2 = (Ok new_key, later).

(** No socket, TLS or file operation of the exchange fails or is
    interrupted. *)
Definition no_io_error (reqtype : string) (w : world) : Prop :=
  wrap_error (current_conn w) = None /\
  connect_error (current_conn w) = None /\
  send_error (current_conn w) = None /\
  (reqtype = "keygen"%string ->
   key_file_io w = WriteOk /\ exists new_key, received_key w new_key).

(** [msg] is a request authenticated under [key]. *)
Definition authenticated_with (key msg : bytes) : Prop :=
  exists k t,
    msg = flag_byte k :: le_bytes 8 t ++
          hmac_sha256 key (flag_byte k :: le_bytes 8 t).

(** ** Sample worlds

    A 32-byte key in memory and on disk, a clock that shows 1700000000 when
    the request is stamped and one second more at each later reading, and
    one scripted peer. *)
Definition sample_key : bytes := repeat x0b 32.

Definition sample_clock (n : nat) : Q := inject_Z (Z.of_nat n + 1700000000).

Definition sample_world (peer : conn_script) : world :=
  mk_world sample_key (b64e sample_key) WriteOk sample_clock 0
           "Tue Nov  3 12:00:00 2026" [peer] [] [].

(** A peer that answers with one status byte. *)
Definition status_peer (status : byte) : conn_script :=
  mk_conn None None None [Chunk [status]].

(** A peer that acknowledges a key rotation with a timestamp [age] seconds
    older than the client's clock at the check, followed by [key_bytes], and
    then closes the connection. *)
Definition keygen_peer (age : Z) (key_bytes : bytes) : conn_script :=
  mk_conn None None None
          [Chunk (x55 :: le_bytes 8 (1700000001 - age) ++ key_bytes)].

(** * The rest of the program *)

(** ** base64.b64decode (binascii.a2b_base64, not strict) *)

Inductive binascii_error :=
| IncorrectPadding          (* "Incorrect padding" *)
| InvalidLength (n : Z).    (* "number of data characters (n) cannot be 1
                               more than a multiple of 4" *)

Inductive b64_result :=
| Decoded (data : bytes)
| BinasciiError (e : binascii_error).

(** table_a2b_base64: the value of an alphabet character, nothing for any
    other byte. *)
Fixpoint index_of (c : byte) (l : bytes) (i : Z) : option Z :=
  match l with
  | [] => None
  | x :: rest => if Byte.eqb c x then Some i else index_of c rest (i + 1)
  end.

Definition b64_index (c : byte) : option Z := index_of c b64_alphabet 0.

(** The decoding loop: [quad_pos] is the position in the current group of
    four characters, [leftchar] the bits left over from the previous
    character, [pads] the run of pad characters seen since the last data
    character, [out] the bytes produced so far, last first.  A pad sequence
    that completes a group ends the decoding; other pad characters and
    characters outside the alphabet are skipped. *)
Fixpoint a2b_base64_loop (data : bytes) (quad_pos leftchar pads : Z)
         (out : bytes) : b64_result :=
  match data with
  | [] =>
      if quad_pos =? 0 then Decoded (rev out)
      else if quad_pos =? 1 then
        BinasciiError
          (InvalidLength (Z.of_nat (List.length out) / 3 * 4 + 1))
      else BinasciiError IncorrectPadding
  | ch :: rest =>
      if Byte.eqb ch b64_pad then
        if (2 <=? quad_pos) && (4 <=? quad_pos + (pads + 1))
        then Decoded (rev out)
        else a2b_base64_loop rest quad_pos leftchar
                             (if 2 <=? quad_pos then pads + 1 else pads) out
      else
        match b64_index ch with
        | None => a2b_base64_loop rest quad_pos leftchar pads out
        | Some v =>
            if quad_pos =? 0 then
              a2b_base64_loop rest 1 v 0 out
            else if quad_pos =? 1 then
              a2b_base64_loop rest 2 (Z.land v 0x0f) 0
                (byte_of_Z (Z.lor (Z.shiftl leftchar 2) (Z.shiftr v 4) mod 256)
                 :: out)
            else if quad_pos =? 2 then
              a2b_base64_loop rest 3 (Z.land v 0x03) 0
                (byte_of_Z (Z.lor (Z.shiftl leftchar 4) (Z.shiftr v 2) mod 256)
                 :: out)
            else
              a2b_base64_loop rest 0 0 0
                (byte_of_Z (Z.lor (Z.shiftl leftchar 6) v mod 256) :: out)
        end
  end.

Definition b64d (data : bytes) : b64_result := a2b_base64_loop data 0 0 0 [].

(** Lines 51-54. *)
Definition read_key_from_file (w : world) : b64_result := b64d (key_file w).

Definition set_KEY (v : bytes) (w : world) : world :=
  mk_world v (key_file w) (key_file_io w) (clock w) (ticks w) (asctime w)
           (conns w) (wire w) (logbook w).

(** Line 63, run when the module is loaded: KEY = read_key_from_file(); a
    key file that does not decode stops the program there. *)
Definition load_key (w : world) : binascii_error + world :=
  match read_key_from_file w with
  | Decoded key => inr (set_KEY key w)
  | BinasciiError e => inl e
  end.

(** The bytes the decoder looks at: the alphabet and the pad character. *)
Definition b64_significant (c : byte) : bool :=
  Byte.eqb c b64_pad ||
  match b64_index c with
  | Some _ => true
  | None => false
  end.

(** The byte each kind of request must be answered with. *)
Definition sentinel (k : RequestKind) : byte :=
  match k with
  | Open | Close => xff
  | KeyRotation => x55
  end.

(** [msg] is an open or close request authenticated under [key]. *)
Definition toggle_request (key msg : bytes) : Prop :=
  exists k t,
    k <> KeyRotation /\
    msg = flag_byte k :: le_bytes 8 t ++
          hmac_sha256 key (flag_byte k :: le_bytes 8 t).

(** ** The display loop (lines 155-201)

    The terminal as the program drives it: the curses calls it makes, and
    the two ways curses can fail it (a text that addstr cannot put in the
    window, a terminal that cannot hide the cursor). *)
Inductive curses_call :=
| WinClear
| WinAddstr (s : string) (bold : bool)
| WinRefresh
| WinNodelay (flag : Z)
| CursSet (visibility : Z)
| Flash
| Beep.

Record terminal := mk_terminal {
  calls : list curses_call;                (* newest first *)
  addstr_error : string -> option string;  (* str(e) of the curses.error *)
  curs_set_error : option string
}.

Definition call (c : curses_call) (t : terminal) : terminal :=
  mk_terminal (c :: calls t) (addstr_error t) (curs_set_error t).

(** What win.getch() delivers: a key, or control-c (KeyboardInterrupt). *)
Inductive keypress :=
| Key (code : Z)
| Interrupt.

(** What the display code can raise: its own exceptions, and what leaves
    ssl_request. *)
Inductive ui_exn :=
| CursesError (msg : string)
| UnboundLocalError (name : string)
| Propagated (e : exn).

(** except KeyboardInterrupt (line 199) *)
Definition is_KeyboardInterrupt (e : ui_exn) : bool :=
  match e with
  | Propagated KeyboardInterrupt => true
  | _ => false
  end.

Inductive ui_result (A : Type) :=
| Fine (a : A)
| Uncaught (e : ui_exn).
Arguments Fine {A} a.
Arguments Uncaught {A} e.

Definition STATE_CLOSED : Z := 0.
Definition STATE_OPEN : Z := 1.

(** logging.info(log(s)) and logging.warning(log(s)). *)
Definition log_info (s : string) (w : world) : world :=
  snd ((msg <- log s ;; logging_info msg) w).
Definition log_warning (s : string) (w : world) : world :=
  snd ((msg <- log s ;; logging_warning msg) w).

(** Lines 155-161: a curses error while drawing is logged and dropped. *)
Definition ncurses_write (s : string) (w : world) (t : terminal)
  : world * terminal :=
  let t := call WinClear t in
  let t := call (WinAddstr s true) t in
  match addstr_error t s with
  | None => (w, t)
  | Some msg => (snd (logging_warning msg w), t)
  end.

(** The local variables of main. *)
Record locals := mk_locals {
  state : Z;
  success : bool;
  reqtype : option string      (* unbound until the first request *)
}.

(** ** Housekeeping at startup (lines 217-221) *)

Definition MAX_LOG_ENTRIES : nat := 1024.

Definition text := list ascii.

Definition LF : ascii := ascii_of_nat 10.
Definition CR : ascii := ascii_of_nat 13.

(** f.readlines() on a file opened in text mode: the lines, each with its
    line end (a line feed, a carriage return, or both) read as a line feed;
    [cur] is the line being read, last character first. *)
Fixpoint readlines (cur : text) (s : text) : list text :=
  match s with
  | [] =>
      match cur with
      | [] => []
      | _ => [rev cur]
      end
  | c :: rest =>
      if Ascii.eqb c LF then rev (LF :: cur) :: readlines [] rest
      else if Ascii.eqb c CR then
        match rest with
        | c' :: rest' =>
            if Ascii.eqb c' LF then rev (LF :: cur) :: readlines [] rest'
            else rev (LF :: cur) :: readlines [] rest
        | [] => rev (LF :: cur) :: readlines [] rest
        end
      else readlines (c :: cur) rest
  end.

(** f.write(data) with the file position at [pos]: the data replaces what
    is there and extends the file if it reaches past its end. *)
Definition file_write (pos : nat) (data content : text) : text :=
  firstn pos content ++ data ++ skipn (pos + List.length data) content.

Inductive opened :=
| FileNotFoundError
| Closed.             (* the with block ran and the file was closed *)

(** Lines 217-221; the log file is its text, or nothing when it does not
    exist.  Reading the lines leaves the position at the end of the file. *)
Definition truncate_log (log_file : option text) : opened * option text :=
  match log_file with
  | None => (FileNotFoundError, None)
  | Some content =>
      let lines := readlines [] content in
      let pos := List.length content in
      if (MAX_LOG_ENTRIES <? List.length lines)%nat
      then (Closed, Some (file_write pos [] content))
      else (Closed, Some content)
  end.

Section Display.

(** Figlet(font='doh', width=256).renderText, which draws the banners. *)
Variable renderText : string -> string.

Definition newline : string := String (ascii_of_nat 10) EmptyString.

Definition BANNER_OPEN : string :=
  renderText ("The Lab is" ++ newline ++ "OPEN :)").
Definition BANNER_CLOSE : string :=
  renderText ("The Lab is" ++ newline ++ "CLOSED :(").

(** Lines 182-185 and 187-190: make the request and, if it succeeded, draw
    the banner; the new values of reqtype and success. *)
Definition request_and_draw (rt banner : string) (w : world) (t : terminal)
  : ui_result (option string * bool) * world * terminal :=
  match ssl_request rt w with
  | (Raise e, w1) => (Uncaught (Propagated e), w1, t)
  | (Ok ok, w1) =>
      let (w2, t2) := if ok then ncurses_write banner w1 t else (w1, t) in
      (Fine (Some rt, ok), w2, t2)
  end.

(** Lines 181-197: one pass of the loop, after getch returned a key. *)
Definition key_pressed (l : locals) (w : world) (t : terminal)
  : ui_result locals * world * terminal :=
  let '(r, w, t) :=
    if state l =? STATE_CLOSED then
      request_and_draw "open" BANNER_OPEN w t
    else if state l =? STATE_OPEN then
      request_and_draw "close" BANNER_CLOSE w t
    else (Fine (reqtype l, success l), w, t) in
  match r with
  | Uncaught e => (Uncaught e, w, t)
  | Fine (reqtype, true) =>
      match reqtype with
      | None => (Uncaught (UnboundLocalError "reqtype"), w, t)
      | Some rt =>
          (Fine (mk_locals (Z.lxor (state l) 1) true reqtype),
           log_info (rt ++ " request success") w, t)
      end
  | Fine (reqtype, false) =>
      let t := call Beep (call Flash t) in
      match reqtype with
      | None => (Uncaught (UnboundLocalError "reqtype"), w, t)
      | Some rt =>
          (Fine (mk_locals (state l) false reqtype),
           log_warning (rt ++ " request failed") w, t)
      end
  end.

(** How main stopped: control-c, at the prompt or while a request was
    under way, or still waiting for a key when the keys at hand ran out. *)
Inductive main_end := ClientExit | AwaitingKey.

(** Lines 178-201.  Control-c is taken to arrive while the program waits:
    in getch, or in a call on the socket during a request; either way the
    handler of line 199 logs the exit and main returns. *)
Fixpoint main_loop (keys : list keypress) (l : locals) (w : world)
         (t : terminal) : ui_result main_end * locals * world * terminal :=
  match keys with
  | [] => (Fine AwaitingKey, l, w, t)
  | Interrupt :: _ => (Fine ClientExit, l, log_info "client exit" w, t)
  | Key _ :: rest =>
      match key_pressed l w t with
      | (Uncaught e, w', t') =>
          if is_KeyboardInterrupt e
          then (Fine ClientExit, l, log_info "client exit" w', t')
          else (Uncaught e, l, w', t')
      | (Fine l', w', t') => main_loop rest l' w' t'
      end
  end.

Definition PROMPT : string := "Use any key to toggle, or control-c to quit".

(** Lines 164-201; with the result, the local variables as they were when
    main stopped. *)
Definition main (keys : list keypress) (w : world) (t : terminal)
  : ui_result main_end * locals * world * terminal :=
  let w := log_info "client init" w in
  let l := mk_locals STATE_CLOSED true None in
  let t := call WinClear t in
  let t := call (CursSet 0) t in
  match curs_set_error t with
  | Some msg => (Uncaught (CursesError msg), l, w, t)
  | None =>
      let t := call (WinNodelay 0) t in
      let t := call (WinAddstr PROMPT false) t in
      match addstr_error t PROMPT with
      | Some msg => (Uncaught (CursesError msg), l, w, t)
      | None => main_loop keys l w (call WinRefresh t)
      end
  end.

(** Lines 204-214: the lines show_help prints. *)
Definition show_help : list string :=
  [ "SecLab Bot usage: python3 sec-lab-bot.py [--keygen]";
    EmptyString;
    "The following files are required for operation:";
    tab ++ "LOG_FILE" ++ tab ++ "[client.log]";
    tab ++ "KEY_FILE" ++ tab ++ "[psk.b64]";
    tab ++ "SSL_CERT_FILE" ++ tab ++ "[pinned.pem]";
    EmptyString;
    "The --keygen option will request a new PSK from the server";
    EmptyString;
    "Use any key to toggle open/close, or control-c to quit" ]%string.

(** What stops the program with a traceback. *)
Inductive uncaught :=
| KeyFileError (e : binascii_error)     (* line 63 *)
| LogFileMissing                        (* line 219 *)
| RequestError (e : exn)                (* line 235 *)
| DisplayError (e : ui_exn).            (* line 237 *)

Inductive program_end :=
| SysExit (code : Z)
| Traceback (e : uncaught)
| Waiting.                              (* blocked in getch *)

(** Line 63 and lines 224-238: the program from the loading of the module
    to its exit, with the command line [argv], the text of the log file
    (nothing when there is none) and the keys pressed; the result carries
    what was printed.  curses.wrapper passes on what main raises. *)
Definition program (argv : list string) (log_file : option text)
           (keys : list keypress) (w : world) (t : terminal)
  : program_end * list string * world * terminal :=
  match load_key w with
  | inl e => (Traceback (KeyFileError e), [], w, t)
  | inr w =>
      match truncate_log log_file with
      | (FileNotFoundError, _) => (Traceback LogFileMissing, [], w, t)
      | (Closed, _) =>
          if str_in "-h" argv || str_in "--help" argv then
            (SysExit 0, show_help, w, t)
          else
            match (if str_in "--keygen" argv then ssl_request "keygen" w
                   else (Ok EXIT_SUCCESS, w)) with
            | (Raise e, w) => (Traceback (RequestError e), [], w, t)
            | (Ok _, w) =>
                match main keys w t with
                | (Uncaught e, _, w, t) =>
                    (Traceback (DisplayError e), [], w, t)
                | (Fine ClientExit, _, w, t) => (SysExit 0, [], w, t)
                | (Fine AwaitingKey, _, w, t) => (Waiting, [], w, t)
                end
            end
      end
  end.

End Display.

(** The key presses that reach the loop before the first control-c at the
    prompt. *)
Fixpoint keys_before_interrupt (keys : list keypress) : nat :=
  match keys with
  | Key _ :: rest => S (keys_before_interrupt rest)
  | _ => O
  end.

(** The world a run of the program ends in. *)
Definition final_world
           (r : program_end * list string * world * terminal) : world :=
  snd (fst r).

(** * Properties *)

(** ** Bytes and the little-endian codec *)

Lemma byte_to_Z_range (b : byte) : 0 <= byte_to_Z b < 256.
Proof.
  unfold byte_to_Z. pose proof (Byte.to_N_bounded b) as Hb. lia.
Qed.

Lemma byte_to_of_Z (z : Z) : 0 <= z < 256 -> byte_to_Z (byte_of_Z z) = z.
Proof.
  intros Hz. unfold byte_to_Z, byte_of_Z.
  destruct (Byte.of_N (Z.to_N z)) as [b|] eqn:E.
  - apply Byte.to_of_N in E. rewrite E. lia.
  - apply Byte.of_N_None_iff in E. lia.
Qed.

Lemma length_le_bytes (n : nat) (z : Z) : List.length (le_bytes n z) = n.
Proof.
  revert z. induction n as [|n IH]; intros z; simpl; [reflexivity|].
  now rewrite IH.
Qed.

Lemma le_value_le_bytes (n : nat) (z : Z) :
  le_value (le_bytes n z) = z mod 2 ^ (8 * Z.of_nat n).
Proof.
  revert z. induction n as [|n IH]; intros z.
  - simpl. now rewrite Z.mod_1_r.
  - cbn [le_bytes le_value]. rewrite IH.
    rewrite byte_to_of_Z by (apply Z.mod_pos_bound; lia).
    replace (8 * Z.of_nat (S n)) with (8 + 8 * Z.of_nat n) by lia.
    rewrite Z.pow_add_r by lia. change (2 ^ 8) with 256.
    rewrite Z.rem_mul_r by lia. lia.
Qed.

Lemma le_value_range (data : bytes) :
  0 <= le_value data < 2 ^ (8 * Z.of_nat (List.length data)).
Proof.
  induction data as [|b rest IH].
  - simpl. lia.
  - cbn [le_value List.length]. pose proof (byte_to_Z_range b).
    replace (8 * Z.of_nat (S (List.length rest)))
      with (8 + 8 * Z.of_nat (List.length rest)) by lia.
    rewrite Z.pow_add_r by lia. change (2 ^ 8) with 256. nia.
Qed.

(** Decoding the [n] low bytes of [z] as unsigned gives [z] when it fits. *)
Lemma decode_le_bytes_unsigned (n : nat) (z : Z) :
  0 <= z < 2 ^ (8 * Z.of_nat n) ->
  int_from_bytes (le_bytes n z) false = z.
Proof.
  intros Hz. unfold int_from_bytes. cbn [andb].
  rewrite le_value_le_bytes. now apply Z.mod_small.
Qed.

(** Decoding them as signed gives [z] when it fits in two's complement. *)
Lemma decode_le_bytes_signed (n : nat) (z : Z) :
  (0 < n)%nat ->
  - 2 ^ (8 * Z.of_nat n - 1) <= z < 2 ^ (8 * Z.of_nat n - 1) ->
  int_from_bytes (le_bytes n z) true = z.
Proof.
  intros Hn Hz. unfold int_from_bytes. cbn [andb].
  rewrite le_value_le_bytes, length_le_bytes.
  set (k := 8 * Z.of_nat n) in *.
  assert (Hk : 0 < k) by (unfold k; lia).
  assert (Hp : 2 ^ k = 2 * 2 ^ (k - 1)).
  { replace k with (1 + (k - 1)) at 1 by lia.
    rewrite Z.pow_add_r by lia. reflexivity. }
  assert (Hpos : 0 < 2 ^ (k - 1)) by (apply Z.pow_pos_nonneg; lia).
  destruct (Z.testbit (z mod 2 ^ k) (k - 1)) eqn:T.
  - apply Z.testbit_true in T; [|lia].
    destruct (Z_lt_le_dec z 0) as [Hneg|Hnn].
    + assert (z mod 2 ^ k = z + 2 ^ k) as ->; [|lia].
      symmetry. apply Z.mod_unique with (q := -1); lia.
    + rewrite (Z.mod_small z) in T by lia.
      rewrite (Z.div_small z) in T by lia. discriminate.
  - apply Z.testbit_false in T; [|lia].
    destruct (Z_lt_le_dec z 0) as [Hneg|Hnn].
    + assert (E : z mod 2 ^ k = z + 2 ^ k).
      { symmetry. apply Z.mod_unique with (q := -1); lia. }
      rewrite E in T.
      assert (D : (z + 2 ^ k) / 2 ^ (k - 1) = 1).
      { symmetry. apply Z.div_unique with (r := z + 2 ^ (k - 1)); lia. }
      rewrite D in T. discriminate.
    + apply Z.mod_small. lia.
Qed.

Lemma two_pow_split (k : Z) : 0 < k -> 2 ^ k = 2 * 2 ^ (k - 1).
Proof.
  intros Hk. replace k with (1 + (k - 1)) at 1 by lia.
  rewrite Z.pow_add_r by lia. reflexivity.
Qed.

(** On every input outside the single point (length 0, signed, -1),
    int.to_bytes converts exactly the representable values. *)
Lemma to_bytes_accepts_spec (v size : Z) (sgn : bool) :
  0 <= size -> (size, v, sgn) <> (0, -1, true) ->
  to_bytes_accepts v size sgn = true <-> representable v size sgn.
Proof.
  intros Hs Hne. unfold to_bytes_accepts, representable.
  destruct sgn.
  - destruct (Z.eqb_spec size 0) as [->|Hnz].
    + change (2 ^ (8 * 0)) with 1.
      rewrite orb_true_iff, !Z.eqb_eq. split.
      * intros [->| ->]; [lia|]. exfalso. now apply Hne.
      * lia.
    + pose proof (two_pow_split (8 * size) ltac:(lia)) as Hp.
      rewrite andb_true_iff, Z.leb_le, Z.ltb_lt. lia.
  - rewrite andb_true_iff, Z.leb_le, Z.ltb_lt. tauto.
Qed.

Lemma int_to_bytes_ok (v size : Z) (sgn : bool) :
  0 <= size -> to_bytes_accepts v size sgn = true ->
  int_to_bytes v size sgn = Ok (le_bytes (Z.to_nat size) v).
Proof.
  intros Hs Ha. unfold int_to_bytes.
  destruct (Z.ltb_spec size 0); [lia|].
  rewrite Ha. destruct sgn; cbn [negb andb]; [reflexivity|].
  unfold to_bytes_accepts in Ha. apply andb_true_iff in Ha as [Ha _].
  apply Z.leb_le in Ha. destruct (Z.ltb_spec v 0); [lia|reflexivity].
Qed.

Lemma int_to_bytes_raises (v size : Z) (sgn : bool) :
  size < 0 \/ to_bytes_accepts v size sgn = false ->
  exists e, int_to_bytes v size sgn = Raise e.
Proof.
  intros H. unfold int_to_bytes.
  destruct (Z.ltb_spec size 0); [eauto|].
  destruct H as [H|H]; [lia|]. rewrite H.
  destruct (negb sgn && (v <? 0)); eauto.
Qed.

(** The 8-byte signed encoding used for timestamps. *)
Lemma wire_encode_timestamp (t : Z) :
  - 2 ^ 63 <= t < 2 ^ 63 ->
  wire_encode_int (PyInt t) 8 true = Ok (le_bytes 8 t).
Proof.
  intros Ht. cbn [wire_encode_int].
  rewrite int_to_bytes_ok; [reflexivity|lia|].
  unfold to_bytes_accepts. cbn [Z.eqb].
  apply andb_true_iff. rewrite Z.leb_le, Z.ltb_lt.
  change (8 * 8 - 1) with 63. lia.
Qed.

Lemma wire_encode_timestamp_inv (t : Z) (tdata : bytes) :
  wire_encode_int (PyInt t) 8 true = Ok tdata ->
  - 2 ^ 63 <= t < 2 ^ 63 /\ tdata = le_bytes 8 t.
Proof.
  cbn [wire_encode_int]. unfold int_to_bytes. cbn [Z.ltb Z.compare negb andb].
  unfold to_bytes_accepts. cbn [Z.eqb]. change (8 * 8 - 1) with 63.
  destruct (andb _ _) eqn:E; [|discriminate].
  apply andb_true_iff in E. rewrite Z.leb_le, Z.ltb_lt in E.
  intros [= <-]. split; [lia|reflexivity].
Qed.

Lemma wire_decode_timestamp (t : Z) :
  - 2 ^ 63 <= t < 2 ^ 63 -> wire_decode_int (le_bytes 8 t) true = t.
Proof.
  intros Ht. unfold wire_decode_int.
  apply decode_le_bytes_signed; [lia|].
  change (8 * Z.of_nat 8 - 1) with 63. lia.
Qed.

(** int.to_bytes at length 0, a length the program never uses: the signed
    value -1 is not representable in zero bytes, yet CPython converts it,
    to the empty byte string, which decodes to 0. *)
Lemma wire_encode_int_width0_minus1_accepted :
  ~ representable (-1) 0 true /\
  wire_encode_int (PyInt (-1)) 0 true = Ok [] /\
  wire_decode_int [] true = 0.
Proof.
  split; [|split; reflexivity].
  unfold representable. cbn. lia.
Qed.

(** Away from that point the codec does what the width says, a zero or
    negative width included. *)
Lemma wire_roundtrip_away_from_width0 (w v : Z) (sgn : bool) :
  (w, v, sgn) <> (0, -1, true) ->
  (representable v w sgn ->
   exists data,
     wire_encode_int (PyInt v) w sgn = Ok data /\
     Z.of_nat (List.length data) = w /\
     wire_decode_int data sgn = v) /\
  (~ representable v w sgn ->
   exists e, wire_encode_int (PyInt v) w sgn = Raise e).
Proof.
  intros Hne. split.
  - intros Hr. assert (Hw : 0 <= w) by apply Hr.
    pose proof (proj2 (to_bytes_accepts_spec v w sgn Hw Hne) Hr) as Ha.
    exists (le_bytes (Z.to_nat w) v). cbn [wire_encode_int].
    rewrite int_to_bytes_ok by assumption.
    rewrite length_le_bytes. repeat split; [lia|].
    unfold wire_decode_int. destruct Hr as [_ Hr]. destruct sgn.
    + destruct (Z.eq_dec w 0) as [->|Hnz].
      * change (2 ^ (8 * 0)) with 1 in Hr. assert (v = 0) as -> by lia.
        reflexivity.
      * pose proof (two_pow_split (8 * w) ltac:(lia)) as Hp.
        apply decode_le_bytes_signed; [lia|].
        rewrite Z2Nat.id by lia. lia.
    + apply decode_le_bytes_unsigned. now rewrite Z2Nat.id by lia.
  - intros Hr. cbn [wire_encode_int]. apply int_to_bytes_raises.
    destruct (Z_lt_le_dec w 0) as [Hneg|Hw]; [now left|right].
    destruct (to_bytes_accepts v w sgn) eqn:Ha; [|reflexivity].
    exfalso. apply Hr. now apply to_bytes_accepts_spec.
Qed.

(** C5: for every width [w] of at least one byte, every value [v] and
    either signedness: if [v] is representable in [w] bytes then encoding
    succeeds with exactly [w] bytes and decoding them with the same
    signedness returns [v]; if [v] is not representable in [w] bytes then
    encoding raises. *)
Theorem wire_roundtrip (w v : Z) (sgn : bool) :
  0 < w ->
  (representable v w sgn ->
   exists data,
     wire_encode_int (PyInt v) w sgn = Ok data /\
     Z.of_nat (List.length data) = w /\
     wire_decode_int data sgn = v) /\
  (~ representable v w sgn ->
   exists e, wire_encode_int (PyInt v) w sgn = Raise e).
Proof.
  intros Hw. apply wire_roundtrip_away_from_width0.
  intros E. injection E as E _ _. lia.
Qed.

Lemma wire_roundtrip_witness :
  0 < 8 /\
  (representable (-2) 8 true ->
   exists data,
     wire_encode_int (PyInt (-2)) 8 true = Ok data /\
     Z.of_nat (List.length data) = 8 /\
     wire_decode_int data true = -2) /\
  (~ representable (-2) 8 true ->
   exists e, wire_encode_int (PyInt (-2)) 8 true = Raise e).
Proof.
  split; [lia|].
  apply (wire_roundtrip 8 (-2) true). lia.
Defined.

(** C6, as stated, fails: decoding the zero-length byte string returns the
    value 0, signed or unsigned; no error is raised. *)
Lemma wire_decode_int_empty_returns_zero :
  exists v, wire_decode_int [] false = v /\ wire_decode_int [] true = v /\ v = 0.
Proof. exists 0. repeat split. Qed.

(** C6 (amended): for every zero-length byte input and either signedness,
    decoding returns 0. *)
Theorem wire_decode_int_zero_length (data : bytes) (sgn : bool) :
  List.length data = 0%nat -> wire_decode_int data sgn = 0.
Proof.
  intros Hlen. destruct data; [|discriminate].
  destruct sgn; reflexivity.
Qed.

Lemma wire_decode_int_zero_length_witness :
  List.length (@nil byte) = 0%nat /\ wire_decode_int [] true = 0.
Proof.
  split; [reflexivity|].
  apply (wire_decode_int_zero_length [] true). reflexivity.
Defined.

(** ** Digests *)

Lemma length_be_bytes (n : nat) (z : Z) :
  List.length (SHA256.be_bytes n z) = n.
Proof. unfold SHA256.be_bytes. now rewrite length_rev, length_le_bytes. Qed.

Lemma length_sha256 (msg : bytes) : List.length (SHA256.sha256 msg) = 32%nat.
Proof.
  unfold SHA256.sha256, SHA256.digest_of.
  rewrite !length_app, !length_be_bytes. reflexivity.
Qed.

Lemma length_hmac_sha256 (key msg : bytes) :
  List.length (hmac_sha256 key msg) = 32%nat.
Proof. unfold hmac_sha256. apply length_sha256. Qed.

(** Known answers: FIPS 180-4 examples and RFC 4231 test cases 1 and 2. *)
Example sha256_abc :
  hex (SHA256.sha256 (ascii_bytes "abc")) =
  "ba7816bf8f01cfea414140de5dae2223b00361a396177a9cb410ff61f20015ad"%string.
Proof. vm_compute. reflexivity. Qed.

Example sha256_two_blocks :
  hex (SHA256.sha256
         (ascii_bytes "abcdbcdecdefdefgefghfghighijhijkijkljklmklmnlmnomnopnopq")) =
  "248d6a61d20638b8e5c026930c3e6039a33ce45964ff2167f6ecedd419db06c1"%string.
Proof. vm_compute. reflexivity. Qed.

Example hmac_sha256_rfc4231_1 :
  hex (hmac_sha256 (repeat x0b 20) (ascii_bytes "Hi There")) =
  "b0344c61d8db38535ca8afceaf0bf12b881dc200c9833da726e9376c2e32cff7"%string.
Proof. vm_compute. reflexivity. Qed.

Example hmac_sha256_rfc4231_2 :
  hex (hmac_sha256 (ascii_bytes "Jefe")
                   (ascii_bytes "what do ya want for nothing?")) =
  "5bdcc146bf60754e6a042426089575c75a003f089d2739839dec58b964ec3843"%string.
Proof. vm_compute. reflexivity. Qed.

Example b64e_padding :
  map (fun s => string_of_list_byte (b64e (ascii_bytes s)))
      ["Man"; "Ma"; "M"; ""]%string
  = ["TWFu"; "TWE="; "TQ=="; ""]%string.
Proof. vm_compute. reflexivity. Qed.

(** ** Building a request *)

Lemma timestamp_run (w : world) :
  timestamp w = (Ok (next_timestamp w), set_ticks (S (ticks w)) w).
Proof. reflexivity. Qed.

Lemma make_request_kind (k : RequestKind) (w : world) :
  - 2 ^ 63 <= next_timestamp w < 2 ^ 63 ->
  make_request (reqtype_of k) w =
  (Ok (flag_byte k :: le_bytes 8 (next_timestamp w) ++
       hmac_sha256 (KEY w) (flag_byte k :: le_bytes 8 (next_timestamp w))),
   set_ticks (S (ticks w)) w).
Proof.
  intros Ht. unfold make_request, timestamp_bytes, bind, lift.
  rewrite timestamp_run, (wire_encode_timestamp _ Ht).
  destruct k; reflexivity.
Qed.

Lemma make_request_unknown (reqtype : string) (w : world) :
  reqtype <> "open"%string -> reqtype <> "close"%string ->
  reqtype <> "keygen"%string ->
  make_request reqtype w = (Raise AttributeError, w).
Proof.
  intros H1 H2 H3. unfold make_request.
  apply String.eqb_neq in H1, H2, H3. rewrite H1, H2, H3. reflexivity.
Qed.

Lemma nth_le_bytes (n i : nat) (z : Z) :
  (i < n)%nat ->
  byte_to_Z (nth i (le_bytes n z) x00) = (z / 2 ^ (8 * Z.of_nat i)) mod 256.
Proof.
  revert i z. induction n as [|n IH]; intros i z Hi; [lia|].
  destruct i as [|i]; cbn [le_bytes nth].
  - rewrite byte_to_of_Z by (apply Z.mod_pos_bound; lia).
    change (2 ^ (8 * Z.of_nat 0)) with 1. now rewrite Z.div_1_r.
  - rewrite IH by lia.
    replace (8 * Z.of_nat (S i)) with (8 + 8 * Z.of_nat i) by lia.
    rewrite Z.pow_add_r by lia. change (2 ^ 8) with 256.
    rewrite Z.div_div by lia. reflexivity.
Qed.

(** C3: for each of the three request kinds, every key and every timestamp
    in the signed 64-bit range, the built request is flag || timestamp ||
    mac, where the flag byte is 0xFF (open), 0x00 (close) or 0xAA (keygen),
    the timestamp field is 8 bytes that decode, little-endian and signed, to
    the timestamp, and the mac is the 32-byte HMAC-SHA256 under the key of
    flag || timestamp; it is 41 bytes long. *)
Theorem make_request_layout (k : RequestKind) (w : world) :
  - 2 ^ 63 <= next_timestamp w < 2 ^ 63 ->
  exists ts mac,
    fst (make_request (reqtype_of k) w) = Ok ([flag_byte k] ++ ts ++ mac) /\
    byte_to_Z (flag_byte k) =
      match k with Open => 0xFF | Close => 0x00 | KeyRotation => 0xAA end /\
    List.length ts = 8%nat /\
    int_from_bytes ts true = next_timestamp w /\
    (forall i, (i < 8)%nat ->
       byte_to_Z (nth i ts x00) = (next_timestamp w / 2 ^ (8 * Z.of_nat i)) mod 256) /\
    mac = hmac_sha256 (KEY w) ([flag_byte k] ++ ts) /\
    List.length mac = 32%nat /\
    List.length ([flag_byte k] ++ ts ++ mac) = 41%nat.
Proof.
  intros Ht. rewrite (make_request_kind k w Ht). cbn [fst].
  exists (le_bytes 8 (next_timestamp w)).
  exists (hmac_sha256 (KEY w) (flag_byte k :: le_bytes 8 (next_timestamp w))).
  split; [reflexivity|].
  split; [destruct k; reflexivity|].
  split; [apply length_le_bytes|].
  split; [apply (wire_decode_timestamp _ Ht)|].
  split; [intros i Hi; now apply nth_le_bytes|].
  split; [reflexivity|].
  split; [apply length_hmac_sha256|].
  cbn [app List.length].
  rewrite length_app, length_le_bytes, length_hmac_sha256. reflexivity.
Qed.

Lemma make_request_layout_witness :
  let w := mk_world (ascii_bytes "Jefe") [] WriteOk
                    (fun _ => inject_Z 1700000000) 0 "" [] [] [] in
  - 2 ^ 63 <= next_timestamp w < 2 ^ 63 /\
  exists ts mac,
    fst (make_request (reqtype_of KeyRotation) w)
      = Ok ([flag_byte KeyRotation] ++ ts ++ mac) /\
    byte_to_Z (flag_byte KeyRotation) = 0xAA /\
    List.length ts = 8%nat /\
    int_from_bytes ts true = next_timestamp w /\
    (forall i, (i < 8)%nat ->
       byte_to_Z (nth i ts x00) = (next_timestamp w / 2 ^ (8 * Z.of_nat i)) mod 256) /\
    mac = hmac_sha256 (KEY w) ([flag_byte KeyRotation] ++ ts) /\
    List.length mac = 32%nat /\
    List.length ([flag_byte KeyRotation] ++ ts ++ mac) = 41%nat.
Proof.
  intros w.
  assert (Ht : - 2 ^ 63 <= next_timestamp w < 2 ^ 63).
  { change (next_timestamp w) with 1700000000. lia. }
  split; [exact Ht|].
  apply (make_request_layout KeyRotation w Ht).
Defined.

(** C7: for every request type that is none of the three kinds, the builder
    produces no message: it raises (the AttributeError of calling to_bytes
    on the None left in val), before the clock is read and with the world
    untouched. *)
Theorem make_request_unknown_kind (reqtype : string) (w : world) :
  (forall k, reqtype <> reqtype_of k) ->
  make_request reqtype w = (Raise AttributeError, w).
Proof.
  intros H. apply make_request_unknown.
  - apply (H Open).
  - apply (H Close).
  - apply (H KeyRotation).
Qed.

Lemma make_request_unknown_kind_witness :
  let w := mk_world (ascii_bytes "Jefe") [] WriteOk
                    (fun _ => inject_Z 1700000000) 0 "" [] [] [] in
  (forall k, "toggle"%string <> reqtype_of k) /\
  make_request "toggle" w = (Raise AttributeError, w).
Proof.
  intros w.
  assert (H : forall k, "toggle"%string <> reqtype_of k)
    by (intros k; destruct k; discriminate).
  split; [exact H|].
  apply (make_request_unknown_kind "toggle" w H).
Defined.

(** C8: the built request depends on nothing but the kind, the key and the
    timestamp: in any two worlds that agree on the key and on the second
    the clock shows (whatever their key files, peers, logs and clock
    histories), the builder returns the same bytes. *)
Theorem make_request_deterministic (k : RequestKind) (w1 w2 : world) :
  KEY w1 = KEY w2 ->
  next_timestamp w1 = next_timestamp w2 ->
  - 2 ^ 63 <= next_timestamp w1 < 2 ^ 63 ->
  exists req,
    fst (make_request (reqtype_of k) w1) = Ok req /\
    fst (make_request (reqtype_of k) w2) = Ok req.
Proof.
  intros Hk Ht Hr.
  rewrite (make_request_kind k w1 Hr).
  rewrite (make_request_kind k w2) by (rewrite <- Ht; exact Hr).
  rewrite <- Hk, <- Ht. cbn [fst]. eexists. split; reflexivity.
Qed.

Lemma make_request_deterministic_witness :
  let w1 := mk_world (ascii_bytes "Jefe") (ascii_bytes "SmVmZQ==") WriteOk
                     (fun _ => inject_Z 1700000000) 0 "Tue" [] [] [] in
  let w2 := mk_world (ascii_bytes "Jefe") [] (OpenFails DiskFull)
                     (fun n => (3400000001 # 2) + inject_Z (Z.of_nat n - 4))%Q
                     4 "Wed" [unreachable] [[x00]] [(INFO, "x"%string)] in
  KEY w1 = KEY w2 /\
  next_timestamp w1 = next_timestamp w2 /\
  - 2 ^ 63 <= next_timestamp w1 < 2 ^ 63 /\
  exists req,
    fst (make_request (reqtype_of Open) w1) = Ok req /\
    fst (make_request (reqtype_of Open) w2) = Ok req.
Proof.
  intros w1 w2.
  assert (Hk : KEY w1 = KEY w2) by reflexivity.
  assert (Ht : next_timestamp w1 = next_timestamp w2) by reflexivity.
  assert (Hr : - 2 ^ 63 <= next_timestamp w1 < 2 ^ 63).
  { change (next_timestamp w1) with 1700000000. lia. }
  repeat split; try assumption; try apply Hr.
  apply (make_request_deterministic Open w1 w2 Hk Ht Hr).
Defined.

(** ** Freshness *)

Lemma timestamp_verify_run (tdata : bytes) (w : world) :
  timestamp_verify tdata w =
  (Ok (next_timestamp w - wire_decode_int tdata true <=? MAX_AGE),
   set_ticks (S (ticks w)) w).
Proof. reflexivity. Qed.

(** C4: with [now] the second the clock shows and [t] the timestamp carried
    by the 8 response bytes, the check accepts exactly when now - t <= 10:
    an age of 10 is accepted, an age of 11 is rejected, a timestamp in the
    future is accepted. *)
Theorem timestamp_verify_boundary (w : world) (t : Z) (tdata : bytes) :
  wire_encode_int (PyInt t) 8 true = Ok tdata ->
  let now := next_timestamp w in
  let accepted := fst (timestamp_verify tdata w) in
  (accepted = Ok true <-> now - t <= 10) /\
  (accepted = Ok false <-> 10 < now - t) /\
  (now - t = 10 -> accepted = Ok true) /\
  (now - t = 11 -> accepted = Ok false) /\
  (now - t < 0 -> accepted = Ok true).
Proof.
  intros He now accepted.
  apply wire_encode_timestamp_inv in He as [Ht ->].
  unfold accepted. rewrite timestamp_verify_run. cbn [fst].
  rewrite (wire_decode_timestamp t Ht). fold now. unfold MAX_AGE.
  destruct (Z.leb_spec (now - t) 10) as [Hle|Hgt].
  - repeat split; intros; try reflexivity; try lia; try discriminate.
  - repeat split; intros; try reflexivity; try lia; try discriminate.
Qed.

Lemma timestamp_verify_boundary_witness :
  let w := mk_world [] [] WriteOk (fun _ => inject_Z 1700000000) 0 "" [] [] [] in
  let t := 1699999990 in
  let tdata := le_bytes 8 t in
  wire_encode_int (PyInt t) 8 true = Ok tdata /\
  let now := next_timestamp w in
  let accepted := fst (timestamp_verify tdata w) in
  (accepted = Ok true <-> now - t <= 10) /\
  (accepted = Ok false <-> 10 < now - t) /\
  (now - t = 10 -> accepted = Ok true) /\
  (now - t = 11 -> accepted = Ok false) /\
  (now - t < 0 -> accepted = Ok true).
Proof.
  intros w t tdata.
  assert (He : wire_encode_int (PyInt t) 8 true = Ok tdata) by reflexivity.
  split; [exact He|].
  apply (timestamp_verify_boundary w t tdata He).
Defined.

(** ** The exchange, path by path *)

Arguments hmac_sha256 : simpl never.
Arguments b64e : simpl never.
Arguments wire_decode_int : simpl never.
Arguments wire_encode_int : simpl never.
Arguments read_chunk : simpl never.
Arguments make_request : simpl never.
Arguments le_bytes : simpl never.
Arguments String.append : simpl never.
Arguments trunc : simpl never.

Lemma timestamp_bytes_run (w : world) :
  timestamp_bytes w =
  (wire_encode_int (PyInt (next_timestamp w)) 8 true, set_ticks (S (ticks w)) w).
Proof. reflexivity. Qed.

Lemma make_request_known (k : RequestKind) (w : world) :
  make_request (reqtype_of k) w =
  match wire_encode_int (PyInt (next_timestamp w)) 8 true with
  | Ok ts => (Ok (flag_byte k :: ts ++ hmac_sha256 (KEY w) (flag_byte k :: ts)),
              set_ticks (S (ticks w)) w)
  | Raise e => (Raise e, set_ticks (S (ticks w)) w)
  end.
Proof.
  unfold make_request, bind, lift.
  destruct k; cbn [reqtype_of String.eqb Ascii.eqb Bool.eqb andb];
    rewrite timestamp_bytes_run;
    destruct (wire_encode_int (PyInt (next_timestamp w)) 8 true); reflexivity.
Qed.

Lemma reqtype_cases (reqtype : string) :
  (exists k, reqtype = reqtype_of k) \/ (forall k, reqtype <> reqtype_of k).
Proof.
  destruct (String.eqb_spec reqtype "open") as [->|H1]; [left; now exists Open|].
  destruct (String.eqb_spec reqtype "close") as [->|H2]; [left; now exists Close|].
  destruct (String.eqb_spec reqtype "keygen") as [->|H3];
    [left; now exists KeyRotation|].
  right. intros []; assumption.
Qed.

Lemma reqtype_of_inj (k k' : RequestKind) : reqtype_of k = reqtype_of k' -> k = k'.
Proof. destruct k, k'; intros H; try reflexivity; discriminate. Qed.

Lemma not_Exception (e : exn) :
  is_Exception e = false -> e = KeyboardInterrupt.
Proof. destruct e; intros H; try discriminate H. reflexivity. Qed.

Lemma exn_of_fault_interrupt (f : fault) :
  exn_of_fault f = KeyboardInterrupt -> f = Interrupted.
Proof. destruct f; intros H; [discriminate H|reflexivity]. Qed.

Lemma wire_encode_int_Exception (v : pyobj) (size : Z) (sgn : bool) (e : exn) :
  wire_encode_int v size sgn = Raise e -> is_Exception e = true.
Proof.
  unfold wire_encode_int, int_to_bytes. destruct v as [|z].
  - intros [= <-]. reflexivity.
  - destruct (size <? 0); [intros [= <-]; reflexivity|].
    destruct (negb sgn && (z <? 0)); [intros [= <-]; reflexivity|].
    destruct (to_bytes_accepts z size sgn); [discriminate|].
    intros [= <-]. reflexivity.
Qed.

Ltac run_world :=
  cbn [KEY key_file key_file_io clock ticks asctime conns wire logbook
       wrap_error connect_error send_error incoming fst snd hd tl negb].

Ltac found_path tac :=
  eexists _, _, _, _; split; [tac | reflexivity].

(** Every run of the with statement of lines 113-126 follows one of the
    paths, ends as the path says and leaves the world the path says,
    whatever the log holds. *)
Lemma exchange_run (reqtype : string) (w : world) (lg' : list (level * string)) :
  exists r kf n sent,
    exchange_path reqtype w r kf n sent /\
    with_ssl_socket (exchange reqtype) (set_logbook lg' w) =
    (r, mk_world (KEY w) kf (key_file_io w) (clock w) (n + ticks w)
                 (asctime w) (tl (conns w)) (sent ++ wire w) lg').
Proof.
  destruct w as [K kf kio clk tk asc cs wr lg].
  unfold with_ssl_socket, exchange, bind, ret, raise,
    conn_connect, conn_sendall, conn_recv, timestamp_verify, timestamp,
    time_time, write_key_to_file.
  unfold current_conn, set_incoming, set_logbook, set_conns, set_wire,
    set_ticks, set_key_file, bind, ret.
  run_world.
  destruct cs as [|[we ce se evs0] rest]; run_world.
  { found_path ltac:(eapply connect_fails; reflexivity). }
  destruct we as [e|].
  { found_path ltac:(eapply wrap_fails; reflexivity). }
  destruct ce as [e|].
  { found_path ltac:(eapply connect_fails; reflexivity). }
  destruct (reqtype_cases reqtype) as [[k ->]|Hunk].
  2: { rewrite (make_request_unknown reqtype _
                  (Hunk Open) (Hunk Close) (Hunk KeyRotation)).
       found_path ltac:(eapply kind_unknown;
                        [reflexivity|reflexivity|assumption]). }
  rewrite make_request_known. unfold next_timestamp. run_world.
  destruct (wire_encode_int (PyInt (trunc (clk tk))) 8 true) as [ts|e] eqn:Henc.
  2: {        found_path ltac:(eapply timestamp_overflows;
                        [reflexivity|reflexivity|reflexivity|exact Henc]). }
  apply wire_encode_timestamp_inv in Henc as [Hrange ->].
  unfold set_ticks. run_world.
  destruct se as [e|].
  { found_path ltac:(eapply send_fails;
                     [reflexivity|reflexivity|reflexivity|exact Hrange
                     |reflexivity]). }
  run_world.
  destruct k; cbn [str_in reqtype_of String.eqb Ascii.eqb Bool.eqb orb andb];
    run_world.
  - (* open *)
    destruct (read_chunk 1 evs0) as [[status|e] later] eqn:R; run_world.
    + destruct (Z.eqb_spec (wire_decode_int status false) FLAG_ALL_GOOD)
        as [E|E]; run_world.
      * found_path ltac:(eapply (toggle_sent _ _ Open); try reflexivity;
                         [exact Hrange|discriminate
                         |eapply status_good; eassumption]).
      * found_path ltac:(eapply (toggle_sent _ _ Open); try reflexivity;
                         [exact Hrange|discriminate
                         |eapply status_bad; eassumption]).
    +       found_path ltac:(eapply (toggle_sent _ _ Open); try reflexivity;
                       [exact Hrange|discriminate
                       |eapply status_read_fails; eassumption]).
  - (* close *)
    destruct (read_chunk 1 evs0) as [[status|e] later] eqn:R; run_world.
    + destruct (Z.eqb_spec (wire_decode_int status false) FLAG_ALL_GOOD)
        as [E|E]; run_world.
      * found_path ltac:(eapply (toggle_sent _ _ Close); try reflexivity;
                         [exact Hrange|discriminate
                         |eapply status_good; eassumption]).
      * found_path ltac:(eapply (toggle_sent _ _ Close); try reflexivity;
                         [exact Hrange|discriminate
                         |eapply status_bad; eassumption]).
    +       found_path ltac:(eapply (toggle_sent _ _ Close); try reflexivity;
                       [exact Hrange|discriminate
                       |eapply status_read_fails; eassumption]).
  - (* keygen *)
    destruct (read_chunk 1 evs0) as [[ack|e] evs1] eqn:R1; run_world.
    2: {          found_path ltac:(eapply keygen_sent; try reflexivity;
                          [exact Hrange|eapply ack_read_fails; eassumption]). }
    destruct (Z.eqb_spec (wire_decode_int ack false) FLAG_KEYGEN_ACK) as [E|E];
      run_world.
    2: { found_path ltac:(eapply keygen_sent; try reflexivity;
                          [exact Hrange|eapply ack_bad; eassumption]). }
    destruct (read_chunk 8 evs1) as [[tdata|e] evs2] eqn:R2; run_world.
    2: {          found_path ltac:(eapply keygen_sent; try reflexivity;
                          [exact Hrange
                          |eapply timestamp_read_fails; eassumption]). }
    destruct (Z.leb_spec (trunc (clk (S tk)) - wire_decode_int tdata true)
                         MAX_AGE) as [F|F]; run_world.
    2: { found_path ltac:(eapply keygen_sent; try reflexivity;
                          [exact Hrange|eapply timestamp_stale; eassumption]). }
    destruct (read_chunk 32 evs2) as [[new_key|e] evs3] eqn:R3; run_world.
    2: {          found_path ltac:(eapply keygen_sent; try reflexivity;
                          [exact Hrange|eapply key_read_fails; eassumption]). }
    destruct kio as [|e|n e] eqn:Hio; run_world;
      found_path ltac:(eapply keygen_sent; try reflexivity;
                       [exact Hrange
                       |eapply key_received; try eassumption; reflexivity]).
Qed.

(** Every run of [ssl_request] follows one of the paths, returns what the
    path says and leaves the world the path says. *)
Lemma ssl_request_run (reqtype : string) (w : world) :
  exists r kf n sent,
    exchange_path reqtype w r kf n sent /\
    ssl_request reqtype w =
    (request_result r, world_after reqtype w r kf n sent).
Proof.
  destruct (exchange_run reqtype w (sent_line reqtype w :: logbook w))
    as (r & kf & n & sent & Hp & Heq).
  exists r, kf, n, sent. split; [exact Hp|].
  unfold ssl_request, try_except_Exception, bind, log, logging_info,
    logging_warning, ret.
  unfold sent_line in Heq. rewrite Heq.
  unfold request_result, world_after, sent_line.
  destruct r as [[]|e]; [reflexivity|].
  destruct (is_Exception e); reflexivity.
Qed.

Lemma request_result_ok (r : result unit) :
  request_result r = Ok EXIT_SUCCESS -> r = Ok tt.
Proof.
  destruct r as [[]|e]; [reflexivity|]. cbn [request_result].
  destruct (is_Exception e); discriminate.
Qed.

(** What a path ends in is an Exception unless control-c arrived. *)
Lemma read_chunk_raises (n : nat) (evs later : list event) (e : exn) :
  read_chunk n evs = (Raise e, later) ->
  exists f, e = exn_of_fault f /\ evs = RecvFails f :: later.
Proof.
  unfold read_chunk. destruct evs as [|[data|f] rest]; intros H;
    try discriminate H.
  injection H as <- <-. now exists f.
Qed.

Lemma read_chunk_later (n : nat) (evs later : list event) (data : bytes)
      (f : fault) :
  read_chunk n evs = (Ok data, later) ->
  In (RecvFails f) later -> In (RecvFails f) evs.
Proof.
  unfold read_chunk. destruct evs as [|[chunk|f'] rest]; intros H;
    try discriminate H; injection H as _ <-.
  - intros [].
  - destruct (skipn n chunk); cbn [In]; intros Hin.
    + now right.
    + destruct Hin as [Hin|Hin]; [discriminate Hin|now right].
Qed.

Lemma read_chunk_interrupt (n : nat) (evs later : list event) :
  read_chunk n evs = (Raise KeyboardInterrupt, later) ->
  In (RecvFails Interrupted) evs.
Proof.
  intros R. apply read_chunk_raises in R as (f & E & ->).
  symmetry in E. apply exn_of_fault_interrupt in E. subst f. now left.
Qed.

Lemma toggle_reply_interrupt (evs : list event) :
  toggle_reply evs (Raise KeyboardInterrupt) ->
  In (RecvFails Interrupted) evs.
Proof.
  inversion 1 as [e later R| |]; subst.
  now apply read_chunk_interrupt in R.
Qed.

Lemma keygen_reply_interrupt (w : world) (evs : list event) (kf : bytes)
      (n : nat) :
  keygen_reply w evs (Raise KeyboardInterrupt) kf n ->
  In (RecvFails Interrupted) evs.
Proof.
  inversion 1
    as [e later R| |ack evs1 e later R1 D R2|
        |ack evs1 tdata evs2 e later R1 D R2 F R3
        |ack evs1 tdata evs2 new_key later r kf' R1 D R2 F R3 W]; subst.
  - now apply read_chunk_interrupt in R.
  - apply read_chunk_interrupt in R2.
    exact (read_chunk_later _ _ _ _ _ R1 R2).
  - apply read_chunk_interrupt in R3.
    apply (read_chunk_later _ _ _ _ _ R1).
    exact (read_chunk_later _ _ _ _ _ R2 R3).
  - destruct (key_file_io w); discriminate W.
Qed.

Lemma exchange_path_interrupt (reqtype : string) (w : world) (kf : bytes)
      (n : nat) (sent : list bytes) :
  exchange_path reqtype w (Raise KeyboardInterrupt) kf n sent ->
  interrupted (current_conn w).
Proof.
  unfold interrupted.
  inversion 1
    as [f Hw E|f Hw Hc E| |k e Hw Hc Hk Henc|k f Hw Hc Hk Hr Hs E
        |k r Hw Hc Hk Hr Hs Hnk Ht|r kf' n' Hw Hc Hk Hr Hs Hg]; subst.
  - apply exn_of_fault_interrupt in E. subst f. now left.
  - apply exn_of_fault_interrupt in E. subst f. right. now left.
  - apply wire_encode_int_Exception in Henc. discriminate Henc.
  - apply exn_of_fault_interrupt in E. subst f. right. right. now left.
  - right. right. right. now apply toggle_reply_interrupt.
  - right. right. right. now apply (keygen_reply_interrupt w _ kf n').
Qed.

(** ** Sentinels *)

Lemma byte_of_to_Z (b : byte) : byte_of_Z (byte_to_Z b) = b.
Proof.
  unfold byte_of_Z, byte_to_Z. now rewrite N2Z.id, Byte.of_to_N.
Qed.

Lemma length_read_chunk (n : nat) (evs later : list event) (data : bytes) :
  read_chunk n evs = (Ok data, later) -> (List.length data <= n)%nat.
Proof.
  unfold read_chunk. destruct evs as [|[chunk|e] rest]; intros [= <- _].
  - cbn. lia.
  - rewrite length_firstn. lia.
Qed.

(** A read of at most one byte that decodes to a non-zero value [z]
    returned exactly the byte [z]. *)
Lemma sentinel_byte (evs later : list event) (data : bytes) (z : Z) :
  read_chunk 1 evs = (Ok data, later) ->
  wire_decode_int data false = z -> z <> 0 ->
  data = [byte_of_Z z].
Proof.
  intros R D Hz. apply length_read_chunk in R.
  unfold wire_decode_int, int_from_bytes in D. cbn [andb] in D.
  destruct data as [|b [|b' rest]]; cbn [List.length] in R; try lia;
    cbn [le_value] in D.
  - congruence.
  - rewrite <- D. f_equal. rewrite Z.mul_0_r, Z.add_0_r.
    symmetry. apply byte_of_to_Z.
Qed.

Lemma toggle_reply_ok (evs : list event) :
  toggle_reply evs (Ok tt) ->
  exists later, read_chunk 1 evs = (Ok [xff], later).
Proof.
  inversion 1 as [| |status later R D].
  exists later. rewrite R. repeat f_equal.
  apply (sentinel_byte _ _ _ _ R D). discriminate.
Qed.

Lemma keygen_reply_ok (w : world) (evs : list event) (kf : bytes) (n : nat) :
  keygen_reply w evs (Ok tt) kf n ->
  exists evs1 tdata evs2 new_key later,
    read_chunk 1 evs = (Ok [x55], evs1) /\
    read_chunk 8 evs1 = (Ok tdata, evs2) /\
    verify_time w - wire_decode_int tdata true <= MAX_AGE /\
    read_chunk 32 evs2 = (Ok new_key, later) /\
    key_file_io w = WriteOk /\
    kf = b64e new_key /\ n = 1%nat.
Proof.
  inversion 1
    as [| | | | |ack evs1 tdata evs2 new_key later r kf' R1 D R2 F R3 W].
  subst. exists evs1, tdata, evs2, new_key, later.
  rewrite (sentinel_byte _ _ _ _ R1 D) in R1 by discriminate.
  destruct (key_file_io w); try discriminate.
  injection W as ->. repeat split; assumption.
Qed.

(** ** Success means validation *)

Lemma exchange_path_ok (reqtype : string) (w : world) (kf : bytes) (n : nat)
      (sent : list bytes) :
  exchange_path reqtype w (Ok tt) kf n sent ->
  validated reqtype w /\ no_io_error reqtype w.
Proof.
  inversion 1
    as [| | | | |k r Hw Hc Hk Hr Hs Hnk Ht|r kf' n' Hw Hc Hk Hr Hs Hg]; subst.
  - split.
    + left. split; [destruct k; [now left|now right|contradiction]|].
      now apply toggle_reply_ok.
    + do 3 (split; [assumption|]).
      intros Hk. destruct k; try discriminate. contradiction.
  - destruct (keygen_reply_ok _ _ _ _ Hg)
      as (evs1 & tdata & evs2 & nk & later & R1 & R2 & F & R3 & Hio & _).
    split.
    + right. split; [reflexivity|].
      exists evs1, tdata, evs2. repeat split; assumption.
    + do 3 (split; [assumption|]). intros _. split; [exact Hio|].
      exists nk, evs1, tdata, evs2, later. repeat split; assumption.
Qed.

(** C2: every request, whatever its kind and whatever the peer and the
    path do, returns EXIT_SUCCESS or EXIT_FAILURE, and EXIT_SUCCESS only if
    the reply was validated (status byte 0xFF for open and close; ack byte
    0x55 and a timestamp at most MAX_AGE seconds old for keygen) and no
    socket, TLS or file operation failed; so a sentinel mismatch, a stale
    timestamp or an I/O error gives EXIT_FAILURE.  The one other end is a
    control-c arriving during the exchange, which reports no success
    either: the request passes KeyboardInterrupt on. *)
Theorem ssl_request_success_only_if_validated (reqtype : string) (w : world) :
  (exists b w',
     ssl_request reqtype w = (Ok b, w') /\
     (b = EXIT_SUCCESS -> validated reqtype w /\ no_io_error reqtype w) /\
     (~ validated reqtype w \/ ~ no_io_error reqtype w -> b = EXIT_FAILURE)) \/
  (exists w',
     ssl_request reqtype w = (Raise KeyboardInterrupt, w') /\
     interrupted (current_conn w)).
Proof.
  destruct (ssl_request_run reqtype w) as (r & kf & n & sent & Hp & Heq).
  rewrite Heq.
  destruct r as [[]|e]; cbn [request_result].
  - left. eexists _, _. split; [reflexivity|].
    apply exchange_path_ok in Hp.
    split; [intros _; exact Hp|].
    intros [Hn|Hn]; exfalso; apply Hn, Hp.
  - destruct (is_Exception e) eqn:He.
    + left. eexists _, _. split; [reflexivity|].
      split; [discriminate|reflexivity].
    + apply not_Exception in He. subst e.
      right. eexists. split; [reflexivity|].
      exact (exchange_path_interrupt _ _ _ _ _ Hp).
Qed.

(** The end-to-end scenarios: an open request answered 0xFF succeeds and
    puts flag || timestamp || mac on the wire; answered 0x00 it fails. *)
Example open_acknowledged :
  let w := sample_world (status_peer xff) in
  fst (ssl_request "open" w) = Ok EXIT_SUCCESS /\
  wire (snd (ssl_request "open" w)) =
    [xff :: le_bytes 8 1700000000 ++
     hmac_sha256 sample_key (xff :: le_bytes 8 1700000000)].
Proof. vm_compute. split; reflexivity. Qed.

Example open_refused :
  fst (ssl_request "open" (sample_world (status_peer x00))) = Ok EXIT_FAILURE.
Proof. vm_compute. reflexivity. Qed.

(** A key rotation answered with a timestamp 3 seconds old stores the new
    key; with one 11 seconds old it fails and the key file is untouched. *)
Example keygen_fresh :
  let w := sample_world (keygen_peer 3 (repeat x41 32)) in
  fst (ssl_request "keygen" w) = Ok EXIT_SUCCESS /\
  key_file (snd (ssl_request "keygen" w)) = b64e (repeat x41 32).
Proof. vm_compute. split; reflexivity. Qed.

Example keygen_stale :
  let w := sample_world (keygen_peer 11 (repeat x41 32)) in
  fst (ssl_request "keygen" w) = Ok EXIT_FAILURE /\
  key_file (snd (ssl_request "keygen" w)) = key_file w /\
  hd_error (logbook (snd (ssl_request "keygen" w))) =
    Some (failed_line "keygen" w stale_response).
Proof. vm_compute. repeat split; reflexivity. Qed.

(** ** What leaves the request *)

(** C10, as stated, fails when control-c arrives while the request waits
    for the connection: the KeyboardInterrupt is not an Exception, the
    handler of line 128 does not catch it, and it leaves ssl_request with
    nothing but the request-sent line logged. *)
Lemma ssl_request_passes_on_KeyboardInterrupt :
  fst (ssl_request "open"
         (sample_world (mk_conn None (Some Interrupted) None []))) =
    Raise KeyboardInterrupt /\
  logbook (snd (ssl_request "open"
                  (sample_world (mk_conn None (Some Interrupted) None [])))) =
    [sent_line "open" (sample_world (mk_conn None (Some Interrupted) None []))].
Proof. vm_compute. split; reflexivity. Qed.

(** C10 (amended): a request returns EXIT_SUCCESS or EXIT_FAILURE unless
    control-c arrives during one of its calls on the socket; only then does
    an exception leave it, and it is KeyboardInterrupt.  Whatever else the
    with statement raises (a socket, TLS or file failure, a bad or stale
    response, an unknown request type, a timestamp that cannot be encoded)
    is caught: the request logs it and returns EXIT_FAILURE. *)
Theorem ssl_request_raises_only_KeyboardInterrupt (reqtype : string)
    (w : world) :
  ((exists b w', ssl_request reqtype w = (Ok b, w') /\
                 (b = EXIT_SUCCESS \/ b = EXIT_FAILURE)) \/
   (exists w', ssl_request reqtype w = (Raise KeyboardInterrupt, w') /\
               interrupted (current_conn w))) /\
  (forall e w1,
     with_ssl_socket (exchange reqtype)
                     (set_logbook (sent_line reqtype w :: logbook w) w)
       = (Raise e, w1) ->
     (e = KeyboardInterrupt /\ interrupted (current_conn w) /\
      ssl_request reqtype w = (Raise KeyboardInterrupt, w1)) \/
     (e <> KeyboardInterrupt /\
      ssl_request reqtype w =
        (Ok EXIT_FAILURE,
         set_logbook (failed_line reqtype w1 e :: logbook w1) w1))).
Proof.
  split.
  - destruct (ssl_request_run reqtype w) as (r & kf & n & sent & Hp & Heq).
    rewrite Heq.
    destruct r as [[]|e]; cbn [request_result].
    + left. eexists _, _. split; [reflexivity|now left].
    + destruct (is_Exception e) eqn:He.
      * left. eexists _, _. split; [reflexivity|now right].
      * apply not_Exception in He. subst e.
        right. eexists. split; [reflexivity|].
        exact (exchange_path_interrupt _ _ _ _ _ Hp).
  - intros e w1 Hraise.
    destruct (exchange_run reqtype w (sent_line reqtype w :: logbook w))
      as (r & kf & n & sent & Hp & Heq).
    rewrite Heq in Hraise. injection Hraise as -> Hw1.
    rewrite Hw1 in Heq.
    assert (Hreq : ssl_request reqtype w =
                   if is_Exception e
                   then (Ok EXIT_FAILURE,
                         set_logbook (failed_line reqtype w1 e :: logbook w1)
                                     w1)
                   else (Raise e, w1)).
    { unfold ssl_request, try_except_Exception, bind, log, logging_info.
      unfold sent_line in Heq. rewrite Heq.
      destruct (is_Exception e); reflexivity. }
    destruct (is_Exception e) eqn:He.
    + right. split; [|exact Hreq]. intros ->. discriminate He.
    + apply not_Exception in He. subst e. left.
      split; [reflexivity|]. split; [|exact Hreq].
      exact (exchange_path_interrupt _ _ _ _ _ Hp).
Qed.

(** A refused connection, a failing key file and an unknown request type
    all end in EXIT_FAILURE. *)
Example failures_are_caught :
  fst (ssl_request "open" (sample_world unreachable)) = Ok EXIT_FAILURE /\
  fst (ssl_request "keygen"
         (set_key_file_io (OpenFails PermissionDenied)
            (sample_world (keygen_peer 3 (repeat x41 32))))) = Ok EXIT_FAILURE /\
  fst (ssl_request "toggle" (sample_world (status_peer xff))) = Ok EXIT_FAILURE.
Proof. vm_compute. repeat split; reflexivity. Qed.

(** ** The key in memory and the key on disk *)

Lemma exchange_path_sent (reqtype : string) (w : world) (r : result unit)
      (kf : bytes) (n : nat) (sent : list bytes) :
  exchange_path reqtype w r kf n sent ->
  Forall (authenticated_with (KEY w)) sent.
Proof.
  inversion 1; subst; repeat constructor;
    eexists _, _; reflexivity.
Qed.

(** A request leaves [KEY] alone, and what it sends is authenticated with
    [KEY]. *)
Lemma ssl_request_keeps_key (reqtype : string) (w : world) :
  exists out w',
    ssl_request reqtype w = (out, w') /\
    KEY w' = KEY w /\
    exists sent, wire w' = sent ++ wire w /\
                 Forall (authenticated_with (KEY w)) sent.
Proof.
  destruct (ssl_request_run reqtype w) as (r & kf & n & sent & Hp & Heq).
  exists (request_result r), (world_after reqtype w r kf n sent).
  split; [exact Heq|]. split; [reflexivity|].
  exists sent. split; [reflexivity|]. now apply exchange_path_sent in Hp.
Qed.

Lemma ssl_requests_keep_key (reqtypes : list string) (w : world) :
  KEY (snd (ssl_requests reqtypes w)) = KEY w /\
  exists sent,
    wire (snd (ssl_requests reqtypes w)) = sent ++ wire w /\
    Forall (authenticated_with (KEY w)) sent.
Proof.
  revert w. induction reqtypes as [|r rest IH]; intros w.
  - split; [reflexivity|]. exists []. split; [reflexivity|constructor].
  - destruct (ssl_request_keeps_key r w)
      as (out & w1 & Heq & Hk & sent1 & Hw1 & Ha1).
    destruct out as [b|e].
    + destruct (IH w1) as (Hk2 & sent2 & Hw2 & Ha2).
      assert (Hs : snd (ssl_requests (r :: rest) w) =
                   snd (ssl_requests rest w1)).
      { cbn [ssl_requests]. unfold bind at 1. rewrite Heq.
        unfold bind, ret.
        destruct (ssl_requests rest w1) as [[bs|e] w2]; reflexivity. }
      rewrite Hs. split; [congruence|].
      exists (sent2 ++ sent1). split.
      * rewrite Hw2, Hw1. apply app_assoc.
      * apply Forall_app. split; [|exact Ha1]. now rewrite <- Hk.
    + (* the run stops at the request that control-c ended *)
      assert (Hs : snd (ssl_requests (r :: rest) w) = w1).
      { cbn [ssl_requests]. unfold bind at 1. rewrite Heq. reflexivity. }
      rewrite Hs. split; [exact Hk|].
      exists sent1. split; [exact Hw1|exact Ha1].
Qed.

Lemma exchange_path_keygen_ok (w : world) (kf : bytes) (n : nat)
      (sent : list bytes) :
  exchange_path "keygen" w (Ok tt) kf n sent ->
  exists new_key, received_key w new_key /\ kf = b64e new_key.
Proof.
  inversion 1
    as [| | | | |k r Hw Hc Hk Hr Hs Hnk Ht|r kf' n' Hw Hc Hk Hr Hs Hg]; subst.
  - destruct k; try discriminate. contradiction.
  - destruct (keygen_reply_ok _ _ _ _ Hg)
      as (evs1 & tdata & evs2 & nk & later & R1 & R2 & _ & R3 & _ & -> & _).
    exists nk. split; [|reflexivity].
    exists evs1, tdata, evs2, later. repeat split; assumption.
Qed.

(** C9: a successful key rotation stores the key it received in the key
    file (base64-encoded) and nowhere else: KEY, the key in memory, is the
    one loaded at startup, and it stays so through every later request of
    the process, each of which goes out authenticated with that old key. *)
Theorem keygen_leaves_memory_key (w w' : world) :
  ssl_request "keygen" w = (Ok EXIT_SUCCESS, w') ->
  (exists new_key, received_key w new_key /\ key_file w' = b64e new_key) /\
  KEY w' = KEY w /\
  forall reqtypes,
    KEY (snd (ssl_requests reqtypes w')) = KEY w /\
    exists sent,
      wire (snd (ssl_requests reqtypes w')) = sent ++ wire w' /\
      Forall (authenticated_with (KEY w)) sent.
Proof.
  intros Hok.
  destruct (ssl_request_run "keygen" w) as (r & kf & n & sent & Hp & Heq).
  rewrite Heq in Hok. injection Hok as Hb <-.
  apply request_result_ok in Hb. subst r.
  destruct (exchange_path_keygen_ok _ _ _ _ Hp) as (nk & Hrecv & ->).
  split; [exists nk; split; [exact Hrecv|reflexivity]|].
  split; [reflexivity|].
  intros reqtypes.
  exact (ssl_requests_keep_key reqtypes
           (world_after "keygen" w (Ok tt) (b64e nk) n sent)).
Qed.

Lemma keygen_leaves_memory_key_witness :
  let w := sample_world (keygen_peer 3 (repeat x41 32)) in
  let w' := snd (ssl_request "keygen" w) in
  ssl_request "keygen" w = (Ok EXIT_SUCCESS, w') /\
  (exists new_key, received_key w new_key /\ key_file w' = b64e new_key) /\
  KEY w' = KEY w /\
  forall reqtypes,
    KEY (snd (ssl_requests reqtypes w')) = KEY w /\
    exists sent,
      wire (snd (ssl_requests reqtypes w')) = sent ++ wire w' /\
      Forall (authenticated_with (KEY w)) sent.
Proof.
  intros w w'.
  assert (Hf : fst (ssl_request "keygen" w) = Ok EXIT_SUCCESS)
    by (vm_compute; reflexivity).
  assert (H : ssl_request "keygen" w = (Ok EXIT_SUCCESS, w')).
  { rewrite (surjective_pairing (ssl_request "keygen" w)), Hf. reflexivity. }
  split; [exact H|].
  apply (keygen_leaves_memory_key w w' H).
Defined.

(** After the rotation the key on disk is the new one while the next
    request is still made with the old one. *)
Example keygen_then_open :
  let w := set_conns [keygen_peer 3 (repeat x41 32); status_peer xff]
                     (sample_world unreachable) in
  let w' := snd (ssl_requests ["keygen"; "open"]%string w) in
  fst (ssl_requests ["keygen"; "open"]%string w) = Ok [true; true] /\
  key_file w' = b64e (repeat x41 32) /\
  KEY w' = sample_key /\
  hd_error (wire w') =
    Some (xff :: le_bytes 8 1700000002 ++
          hmac_sha256 sample_key (xff :: le_bytes 8 1700000002)).
Proof. vm_compute. repeat split; reflexivity. Qed.

(** ** The key file *)

Lemma keygen_reply_key_file (w : world) (evs : list event) (r : result unit)
      (kf : bytes) (n : nat) :
  keygen_reply w evs r kf n -> kf <> key_file w ->
  exists evs1 tdata evs2 new_key later,
    read_chunk 1 evs = (Ok [x55], evs1) /\
    read_chunk 8 evs1 = (Ok tdata, evs2) /\
    verify_time w - wire_decode_int tdata true <= MAX_AGE /\
    read_chunk 32 evs2 = (Ok new_key, later) /\
    (List.length new_key <= 32)%nat /\
    ((key_file_io w = WriteOk /\ kf = b64e new_key) \/
     (exists m e, key_file_io w = WriteFails m e /\
                  kf = firstn m (b64e new_key))).
Proof.
  inversion 1
    as [| | | | |ack evs1 tdata evs2 new_key later r' kf' R1 D R2 F R3 W];
    subst; try congruence.
  intros Hkf. exists evs1, tdata, evs2, new_key, later.
  rewrite (sentinel_byte _ _ _ _ R1 D) in R1 by discriminate.
  repeat (split; [assumption|]).
  split; [apply (length_read_chunk _ _ _ _ R3)|].
  destruct (key_file_io w) as [|e|m e]; injection W as -> ->.
  - now left.
  - congruence.
  - right. exists m, e. split; reflexivity.
Qed.

(** The key file is touched only in a key rotation, and only after the ack
    byte and the freshness check passed and the read of the key returned;
    what is written is (a prefix of) the base64 of whatever that read
    returned, which is at most 32 bytes. *)
Lemma key_file_changes_only_when_validated (reqtype : string) (w : world) :
  key_file (snd (ssl_request reqtype w)) <> key_file w ->
  validated reqtype w /\ reqtype = "keygen"%string /\
  exists new_key,
    received_key w new_key /\ (List.length new_key <= 32)%nat /\
    exists m, key_file (snd (ssl_request reqtype w)) = firstn m (b64e new_key).
Proof.
  destruct (ssl_request_run reqtype w) as (r & kf & n & sent & Hp & Heq).
  rewrite Heq. cbn [snd world_after key_file]. intros Hkf.
  inversion Hp as [| | | | | |r' kf' n' Hw Hc Hk Hr Hs Hg]; subst;
    try congruence.
  destruct (keygen_reply_key_file _ _ _ _ _ Hg Hkf)
    as (evs1 & tdata & evs2 & nk & later & R1 & R2 & F & R3 & L & W).
  split.
  { right. split; [reflexivity|].
    exists evs1, tdata, evs2. repeat split; assumption. }
  split; [reflexivity|].
  exists nk. split.
  { exists evs1, tdata, evs2, later. repeat split; assumption. }
  split; [exact L|].
  destruct W as [[_ ->]|(m & e & _ & ->)].
  - exists (List.length (b64e nk)). symmetry. apply firstn_all.
  - exists m. reflexivity.
Qed.

(** With a correct ack byte and a stale timestamp the key file stays as it
    was. *)
Lemma stale_response_keeps_key_file (w : world) (evs1 evs2 : list event)
      (tdata : bytes) :
  read_chunk 1 (incoming (current_conn w)) = (Ok [x55], evs1) ->
  read_chunk 8 evs1 = (Ok tdata, evs2) ->
  MAX_AGE < verify_time w - wire_decode_int tdata true ->
  key_file (snd (ssl_request "keygen" w)) = key_file w.
Proof.
  intros R1 R2 Hstale.
  destruct (list_eq_dec Byte.byte_eq_dec
              (key_file (snd (ssl_request "keygen" w))) (key_file w))
    as [E|N]; [exact E|exfalso].
  apply key_file_changes_only_when_validated in N as [[[[H|H] _]|[_ V]] _];
    try discriminate.
  destruct V as (evs1' & tdata' & evs2' & R1' & R2' & F).
  rewrite R1 in R1'. injection R1' as <-.
  rewrite R2 in R2'. injection R2' as <- <-. lia.
Qed.

(** C1: the stored key is replaced without a full 32-byte read.  The peer
    sends the ack byte 0x55 and a fresh timestamp, then only 5 bytes of key
    (or none) and closes: recv(32) returns what there is, its length is
    never checked, and the request stores it as the new key and reports
    success. *)
Theorem short_key_read_replaces_key_file :
  let short := sample_world (keygen_peer 3 (repeat x41 5)) in
  let closed := sample_world (keygen_peer 3 []) in
  (received_key short (repeat x41 5) /\
   fst (ssl_request "keygen" short) = Ok EXIT_SUCCESS /\
   key_file (snd (ssl_request "keygen" short)) = b64e (repeat x41 5) /\
   key_file (snd (ssl_request "keygen" short)) <> key_file short) /\
  (received_key closed [] /\
   fst (ssl_request "keygen" closed) = Ok EXIT_SUCCESS /\
   key_file (snd (ssl_request "keygen" closed)) = [] /\
   key_file (snd (ssl_request "keygen" closed)) <> key_file closed).
Proof.
  intros short closed. split.
  - split; [|split; [|split]].
    + eexists _, _, _, _. vm_compute. repeat split; reflexivity.
    + vm_compute. reflexivity.
    + vm_compute. reflexivity.
    + intros H. vm_compute in H. discriminate H.
  - split; [|split; [|split]].
    + eexists _, _, _, _. vm_compute. repeat split; reflexivity.
    + vm_compute. reflexivity.
    + vm_compute. reflexivity.
    + intros H. vm_compute in H. discriminate H.
Qed.

(** * More of the program *)

(** ** The key file codec: base64 *)

(** Checking a property of small numbers by running through them. *)
Lemma range_check (P : Z -> bool) (n : nat) :
  forallb (fun i => P (Z.of_nat i)) (seq 0 n) = true ->
  forall z, 0 <= z < Z.of_nat n -> P z = true.
Proof.
  intros H z Hz. rewrite forallb_forall in H.
  specialize (H (Z.to_nat z)). rewrite Z2Nat.id in H by lia.
  apply H. apply in_seq. lia.
Qed.

Lemma range_check2 (P : Z -> Z -> bool) (n m : nat) :
  forallb (fun i => forallb (fun j => P (Z.of_nat i) (Z.of_nat j)) (seq 0 m))
          (seq 0 n) = true ->
  forall x y, 0 <= x < Z.of_nat n -> 0 <= y < Z.of_nat m -> P x y = true.
Proof.
  intros H x y Hx Hy.
  pose proof (range_check (fun x => forallb (fun j => P x (Z.of_nat j)) (seq 0 m))
                          n H x Hx) as Hrow.
  exact (range_check (P x) m Hrow y Hy).
Qed.

Lemma b64_sextet_decodes (z : Z) :
  b64_index (b64_sextet z) = Some (z mod 64) /\
  Byte.eqb (b64_sextet z) b64_pad = false.
Proof.
  assert (H : forall v, 0 <= v < 64 ->
            (match b64_index (b64_sextet v) with
             | Some i => i =? v
             | None => false
             end && negb (Byte.eqb (b64_sextet v) b64_pad))%bool = true).
  { apply (range_check _ 64). vm_compute. reflexivity. }
  assert (Hz : 0 <= z mod 64 < 64) by (apply Z.mod_pos_bound; lia).
  specialize (H _ Hz).
  assert (E : b64_sextet z = b64_sextet (z mod 64)).
  { unfold b64_sextet. now rewrite Z.mod_mod by lia. }
  rewrite E. apply andb_true_iff in H as [H1 H2].
  destruct (b64_index (b64_sextet (z mod 64))) as [i|]; [|discriminate].
  apply Z.eqb_eq in H1. subst i. split; [reflexivity|].
  now apply negb_true_iff in H2.
Qed.

(** The three byte-assembling steps of the decoder, as arithmetic. *)
Lemma a2b_first_byte (l v : Z) :
  0 <= l < 64 -> 0 <= v < 64 ->
  Z.lor (Z.shiftl l 2) (Z.shiftr v 4) mod 256 = l * 4 + v / 16.
Proof.
  intros Hl Hv. apply Z.eqb_eq.
  apply (range_check2
           (fun l v => Z.lor (Z.shiftl l 2) (Z.shiftr v 4) mod 256 =? l * 4 + v / 16)
           64 64); [vm_compute; reflexivity|lia|lia].
Qed.

Lemma a2b_second_byte (l v : Z) :
  0 <= l < 16 -> 0 <= v < 64 ->
  Z.lor (Z.shiftl l 4) (Z.shiftr v 2) mod 256 = l * 16 + v / 4.
Proof.
  intros Hl Hv. apply Z.eqb_eq.
  apply (range_check2
           (fun l v => Z.lor (Z.shiftl l 4) (Z.shiftr v 2) mod 256 =? l * 16 + v / 4)
           16 64); [vm_compute; reflexivity|lia|lia].
Qed.

Lemma a2b_third_byte (l v : Z) :
  0 <= l < 4 -> 0 <= v < 64 ->
  Z.lor (Z.shiftl l 6) v mod 256 = l * 64 + v.
Proof.
  intros Hl Hv. apply Z.eqb_eq.
  apply (range_check2
           (fun l v => Z.lor (Z.shiftl l 6) v mod 256 =? l * 64 + v)
           4 64); [vm_compute; reflexivity|lia|lia].
Qed.

Lemma a2b_leftover (v : Z) :
  0 <= v < 64 -> Z.land v 0x0f = v mod 16 /\ Z.land v 0x03 = v mod 4.
Proof.
  intros Hv.
  assert (H : ((Z.land v 0x0f =? v mod 16) && (Z.land v 0x03 =? v mod 4))%bool = true).
  { apply (range_check
             (fun v => ((Z.land v 0x0f =? v mod 16) && (Z.land v 0x03 =? v mod 4))%bool)
             64); [vm_compute; reflexivity|lia]. }
  apply andb_true_iff in H as [H1 H2]. now rewrite Z.eqb_eq in H1, H2.
Qed.

(** One step of the decoder on a character the encoder produced. *)
Lemma a2b_base64_loop_sextet (z : Z) (rest : bytes) (q l p : Z) (out : bytes) :
  a2b_base64_loop (b64_sextet z :: rest) q l p out =
  if q =? 0 then a2b_base64_loop rest 1 (z mod 64) 0 out
  else if q =? 1 then
    a2b_base64_loop rest 2 (Z.land (z mod 64) 0x0f) 0
      (byte_of_Z (Z.lor (Z.shiftl l 2) (Z.shiftr (z mod 64) 4) mod 256) :: out)
  else if q =? 2 then
    a2b_base64_loop rest 3 (Z.land (z mod 64) 0x03) 0
      (byte_of_Z (Z.lor (Z.shiftl l 4) (Z.shiftr (z mod 64) 2) mod 256) :: out)
  else
    a2b_base64_loop rest 0 0 0
      (byte_of_Z (Z.lor (Z.shiftl l 6) (z mod 64) mod 256) :: out).
Proof.
  destruct (b64_sextet_decodes z) as [Hi Hp].
  cbn [a2b_base64_loop]. rewrite Hp, Hi. reflexivity.
Qed.

Lemma list_ind3 {A} (P : list A -> Prop) :
  P [] -> (forall a, P [a]) -> (forall a b, P [a; b]) ->
  (forall a b c rest, P rest -> P (a :: b :: c :: rest)) ->
  forall l, P l.
Proof.
  intros H0 H1 H2 H3.
  assert (H : forall l, P l /\ (forall a, P (a :: l)) /\ (forall a b, P (a :: b :: l))).
  { induction l as [|x l (IH0 & IH1 & IH2)].
    - repeat split; auto.
    - repeat split; auto. }
  intros l. apply H.
Qed.

Lemma b64e_one (a : byte) :
  b64e [a] =
  let n := byte_to_Z a * 16 in
  [b64_sextet (n / 64); b64_sextet n; b64_pad; b64_pad].
Proof. reflexivity. Qed.

Lemma b64e_two (a b : byte) :
  b64e [a; b] =
  let n := (byte_to_Z a * 256 + byte_to_Z b) * 4 in
  [b64_sextet (n / 4096); b64_sextet (n / 64); b64_sextet n; b64_pad].
Proof. reflexivity. Qed.

Lemma b64e_three (a b c : byte) (rest : bytes) :
  b64e (a :: b :: c :: rest) =
  let n := (byte_to_Z a * 256 + byte_to_Z b) * 256 + byte_to_Z c in
  b64_sextet (n / 262144) :: b64_sextet (n / 4096) ::
  b64_sextet (n / 64) :: b64_sextet n :: b64e rest.
Proof. reflexivity. Qed.

Lemma a2b_base64_loop_b64e (key out : bytes) :
  a2b_base64_loop (b64e key) 0 0 0 out = Decoded (rev out ++ key).
Proof.
  revert out. induction key as [|a|a b|a b c rest IH] using list_ind3; intros out.
  - cbn. now rewrite app_nil_r.
  - rewrite b64e_one. cbv zeta. repeat (rewrite a2b_base64_loop_sextet; cbn [Z.eqb Pos.eqb]).
    cbn [a2b_base64_loop]. change (Byte.eqb b64_pad b64_pad) with true.
    cbn -[Z.land Z.lor Z.shiftl Z.shiftr Z.modulo Z.div byte_of_Z byte_to_Z].
    pose proof (byte_to_Z_range a) as Ha.
    rewrite a2b_first_byte by (apply Z.mod_pos_bound; lia).
    replace ((byte_to_Z a * 16 / 64) mod 64 * 4 + (byte_to_Z a * 16) mod 64 / 16)
      with (byte_to_Z a) by (Z.div_mod_to_equations; lia).
    rewrite byte_of_to_Z. reflexivity.
  - rewrite b64e_two. cbv zeta. repeat (rewrite a2b_base64_loop_sextet; cbn [Z.eqb Pos.eqb]).
    cbn [a2b_base64_loop]. change (Byte.eqb b64_pad b64_pad) with true.
    cbn -[Z.land Z.lor Z.shiftl Z.shiftr Z.modulo Z.div byte_of_Z byte_to_Z].
    pose proof (byte_to_Z_range a) as Ha. pose proof (byte_to_Z_range b) as Hb.
    set (n := (byte_to_Z a * 256 + byte_to_Z b) * 4).
    destruct (a2b_leftover ((n / 64) mod 64)) as [-> _];
      [apply Z.mod_pos_bound; lia|].
    rewrite a2b_first_byte by (apply Z.mod_pos_bound; lia).
    rewrite a2b_second_byte by (apply Z.mod_pos_bound; lia).
    replace ((n / 4096) mod 64 * 4 + (n / 64) mod 64 / 16)
      with (byte_to_Z a) by (unfold n; Z.div_mod_to_equations; lia).
    replace (((n / 64) mod 64) mod 16 * 16 + n mod 64 / 4)
      with (byte_to_Z b) by (unfold n; Z.div_mod_to_equations; lia).
    rewrite !byte_of_to_Z. cbn [rev]. rewrite <- app_assoc. reflexivity.
  - rewrite b64e_three. cbv zeta. repeat (rewrite a2b_base64_loop_sextet; cbn [Z.eqb Pos.eqb]).
    cbn -[Z.land Z.lor Z.shiftl Z.shiftr Z.modulo Z.div byte_of_Z byte_to_Z
          a2b_base64_loop b64e].
    pose proof (byte_to_Z_range a) as Ha. pose proof (byte_to_Z_range b) as Hb.
    pose proof (byte_to_Z_range c) as Hc.
    set (n := (byte_to_Z a * 256 + byte_to_Z b) * 256 + byte_to_Z c).
    destruct (a2b_leftover ((n / 4096) mod 64)) as [-> _];
      [apply Z.mod_pos_bound; lia|].
    destruct (a2b_leftover ((n / 64) mod 64)) as [_ ->];
      [apply Z.mod_pos_bound; lia|].
    rewrite a2b_first_byte by (apply Z.mod_pos_bound; lia).
    rewrite a2b_second_byte by (apply Z.mod_pos_bound; lia).
    rewrite a2b_third_byte by (apply Z.mod_pos_bound; lia).
    replace ((n / 262144) mod 64 * 4 + (n / 4096) mod 64 / 16)
      with (byte_to_Z a) by (unfold n; Z.div_mod_to_equations; lia).
    replace (((n / 4096) mod 64) mod 16 * 16 + (n / 64) mod 64 / 4)
      with (byte_to_Z b) by (unfold n; Z.div_mod_to_equations; lia).
    replace (((n / 64) mod 64) mod 4 * 64 + n mod 64)
      with (byte_to_Z c) by (unfold n; Z.div_mod_to_equations; lia).
    rewrite !byte_of_to_Z, IH. cbn [rev]. rewrite <- !app_assoc. reflexivity.
Qed.

Lemma b64d_b64e (key : bytes) : b64d (b64e key) = Decoded key.
Proof. unfold b64d. rewrite a2b_base64_loop_b64e. reflexivity. Qed.

(** X1: a key stored by write_key_to_file is the key read_key_from_file
    returns: whenever the write succeeds, decoding the file gives back
    exactly the bytes that were written, whatever their number. *)
Theorem written_key_reads_back (key : bytes) (w w' : world) :
  write_key_to_file key w = (Ok tt, w') ->
  read_key_from_file w' = Decoded key.
Proof.
  unfold write_key_to_file, read_key_from_file.
  destruct (key_file_io w); intros [= <-].
  cbn [key_file set_key_file]. apply b64d_b64e.
Qed.

Lemma written_key_reads_back_witness :
  let w := sample_world unreachable in
  let w' := set_key_file (b64e (repeat x41 32)) w in
  write_key_to_file (repeat x41 32) w = (Ok tt, w') /\
  read_key_from_file w' = Decoded (repeat x41 32).
Proof.
  intros w w'.
  assert (H : write_key_to_file (repeat x41 32) w = (Ok tt, w')) by reflexivity.
  split; [exact H|].
  apply (written_key_reads_back (repeat x41 32) w w' H).
Defined.

(** X2: the key file holds 4 characters for every 3 key bytes, rounded up:
    b64e returns 4 * ceil(n / 3) bytes for an n-byte key, so 44 for a
    32-byte key. *)
Theorem length_b64e (key : bytes) :
  List.length (b64e key) = (4 * ((List.length key + 2) / 3))%nat /\
  (List.length key = 32%nat -> List.length (b64e key) = 44%nat).
Proof.
  assert (H : List.length (b64e key) = (4 * ((List.length key + 2) / 3))%nat).
  { induction key as [|a|a b|a b c rest IH] using list_ind3;
      try reflexivity.
    rewrite b64e_three. cbv zeta. cbn [List.length]. rewrite IH.
    replace (S (S (S (List.length rest))) + 2)%nat
      with (List.length rest + 2 + 1 * 3)%nat by lia.
    rewrite Nat.div_add by lia. lia. }
  split; [exact H|]. intros H32. rewrite H, H32. reflexivity.
Qed.

Lemma b64_index_not_pad (c : byte) :
  b64_index c <> None -> Byte.eqb c b64_pad = false.
Proof.
  intros H. destruct (Byte.eqb c b64_pad) eqn:E; [|reflexivity].
  apply Byte.byte_dec_bl in E. subst c. exfalso. apply H. reflexivity.
Qed.

Lemma a2b_base64_loop_unpadded (data : bytes) (q l p : Z) (out : bytes) :
  0 <= q < 4 ->
  Forall (fun c => b64_index c <> None) data ->
  (exists key, a2b_base64_loop data q l p out = Decoded key) <->
  (q + Z.of_nat (List.length data)) mod 4 = 0.
Proof.
  intros Hq Hall. revert q l p out Hq.
  induction Hall as [|c rest Hc Hrest IH]; intros q l p out Hq.
  - cbn [a2b_base64_loop List.length]. rewrite Z.add_0_r, Z.mod_small by lia.
    destruct (Z.eqb_spec q 0) as [->|Hq0].
    + split; [reflexivity|]. intros _. now eexists.
    + split; [|lia]. intros [key H].
      destruct (q =? 1); discriminate.
  - cbn [a2b_base64_loop]. rewrite (b64_index_not_pad c Hc).
    destruct (b64_index c) as [v|]; [|contradiction].
    replace (Z.of_nat (List.length (c :: rest)))
      with (1 + Z.of_nat (List.length rest)) by (cbn [List.length]; lia).
    set (N := Z.of_nat (List.length rest)).
    destruct (Z.eqb_spec q 0) as [->|H0].
    { replace (0 + (1 + N)) with (1 + N) by lia. apply IH. lia. }
    destruct (Z.eqb_spec q 1) as [->|H1].
    { replace (1 + (1 + N)) with (2 + N) by lia. apply IH. lia. }
    destruct (Z.eqb_spec q 2) as [->|H2].
    { replace (2 + (1 + N)) with (3 + N) by lia. apply IH. lia. }
    assert (q = 3) as -> by lia.
    rewrite (IH 0 0 0 _ ltac:(lia)). fold N.
    replace (3 + (1 + N)) with (0 + N + 1 * 4) by lia.
    rewrite Z.mod_add by lia. reflexivity.
Qed.

(** X3: a key file made of alphabet characters only, with no padding,
    decodes if and only if its length is a multiple of 4; otherwise
    read_key_from_file raises binascii.Error. *)
Theorem b64d_unpadded (data : bytes) :
  Forall (fun c => b64_index c <> None) data ->
  (exists key, b64d data = Decoded key) <-> (List.length data mod 4 = 0)%nat.
Proof.
  intros Hall. unfold b64d.
  rewrite (a2b_base64_loop_unpadded data 0 0 0 [] ltac:(lia) Hall).
  rewrite Z.add_0_l.
  pose proof (Nat2Z.inj_mod (List.length data) 4) as E.
  change (Z.of_nat 4) with 4 in E. rewrite <- E.
  split; intros H; [apply Nat2Z.inj; exact H|rewrite H; reflexivity].
Qed.

Lemma b64d_unpadded_witness :
  Forall (fun c => b64_index c <> None) (ascii_bytes "QUFBQ") /\
  ((exists key, b64d (ascii_bytes "QUFBQ") = Decoded key) <->
   (List.length (ascii_bytes "QUFBQ") mod 4 = 0)%nat).
Proof.
  assert (H : Forall (fun c => b64_index c <> None) (ascii_bytes "QUFBQ")).
  { repeat constructor; discriminate. }
  split; [exact H|].
  apply (b64d_unpadded (ascii_bytes "QUFBQ") H).
Defined.

Lemma a2b_base64_loop_filter (data : bytes) (q l p : Z) (out : bytes) :
  a2b_base64_loop (filter b64_significant data) q l p out =
  a2b_base64_loop data q l p out.
Proof.
  revert q l p out. induction data as [|c rest IH]; intros q l p out;
    [reflexivity|].
  cbn [filter]. unfold b64_significant at 1.
  destruct (Byte.eqb c b64_pad) eqn:Ep.
  - cbn [orb a2b_base64_loop]. rewrite Ep.
    destruct ((2 <=? q) && (4 <=? q + (p + 1))); [reflexivity|apply IH].
  - destruct (b64_index c) as [v|] eqn:Ei; cbn [orb a2b_base64_loop].
    + rewrite Ep, Ei.
      destruct (q =? 0); [apply IH|].
      destruct (q =? 1); [apply IH|].
      destruct (q =? 2); apply IH.
    + rewrite Ep, Ei. apply IH.
Qed.

(** X4: bytes outside the base64 alphabet and the pad character (line
    breaks, blanks, anything else) have no effect on what
    read_key_from_file decodes: removing them from the file, or adding
    them anywhere, changes neither the key nor the error. *)
Theorem b64d_ignores_other_bytes (data : bytes) :
  b64d (filter b64_significant data) = b64d data /\
  forall junk,
    Forall (fun c => b64_significant c = false) junk ->
    b64d (data ++ junk) = b64d data.
Proof.
  split; [apply a2b_base64_loop_filter|].
  intros junk Hj. unfold b64d.
  rewrite <- (a2b_base64_loop_filter (data ++ junk)).
  rewrite <- (a2b_base64_loop_filter data).
  rewrite filter_app.
  assert (E : filter b64_significant junk = []).
  { induction Hj as [|c rest Hc _ IH]; [reflexivity|].
    cbn [filter]. rewrite Hc. exact IH. }
  rewrite E, app_nil_r. reflexivity.
Qed.

(** X5: a process started after a successful key rotation loads the key the
    peer sent: the key file decodes to exactly the received bytes, while
    the process that made the exchange keeps the key it started with. *)
Theorem restart_after_keygen (w w' : world) :
  ssl_request "keygen" w = (Ok EXIT_SUCCESS, w') ->
  exists new_key,
    received_key w new_key /\
    KEY w' = KEY w /\
    load_key w' = inr (set_KEY new_key w').
Proof.
  intros Hok.
  destruct (ssl_request_run "keygen" w) as (r & kf & n & sent & Hp & Heq).
  rewrite Heq in Hok. injection Hok as Hb <-.
  apply request_result_ok in Hb. subst r.
  destruct (exchange_path_keygen_ok _ _ _ _ Hp) as (nk & Hrecv & ->).
  exists nk. split; [exact Hrecv|]. split; [reflexivity|].
  unfold load_key, read_key_from_file. cbn [key_file world_after].
  rewrite b64d_b64e. reflexivity.
Qed.

Lemma restart_after_keygen_witness :
  let w := sample_world (keygen_peer 3 (repeat x41 32)) in
  let w' := snd (ssl_request "keygen" w) in
  ssl_request "keygen" w = (Ok EXIT_SUCCESS, w') /\
  exists new_key,
    received_key w new_key /\
    KEY w' = KEY w /\
    load_key w' = inr (set_KEY new_key w').
Proof.
  intros w w'.
  assert (Hf : fst (ssl_request "keygen" w) = Ok EXIT_SUCCESS)
    by (vm_compute; reflexivity).
  assert (H : ssl_request "keygen" w = (Ok EXIT_SUCCESS, w')).
  { rewrite (surjective_pairing (ssl_request "keygen" w)), Hf. reflexivity. }
  split; [exact H|].
  apply (restart_after_keygen w w' H).
Defined.

(** ** The codec, the other way round *)

Lemma le_bytes_S (n : nat) (z : Z) :
  le_bytes (S n) z = byte_of_Z (z mod 256) :: le_bytes n (z / 256).
Proof. reflexivity. Qed.

Lemma le_bytes_le_value (data : bytes) :
  le_bytes (List.length data) (le_value data) = data.
Proof.
  induction data as [|b rest IH]; [reflexivity|].
  cbn [List.length le_value]. rewrite le_bytes_S.
  pose proof (byte_to_Z_range b) as Hb.
  replace ((byte_to_Z b + 256 * le_value rest) mod 256) with (byte_to_Z b)
    by (Z.div_mod_to_equations; lia).
  replace ((byte_to_Z b + 256 * le_value rest) / 256) with (le_value rest)
    by (Z.div_mod_to_equations; lia).
  now rewrite byte_of_to_Z, IH.
Qed.

Lemma le_bytes_mod (n : nat) (z : Z) :
  le_bytes n (z mod 2 ^ (8 * Z.of_nat n)) = le_bytes n z.
Proof.
  revert z. induction n as [|n IH]; intros z; [reflexivity|].
  rewrite !le_bytes_S.
  replace (8 * Z.of_nat (S n)) with (8 + 8 * Z.of_nat n) by lia.
  rewrite Z.pow_add_r by lia. change (2 ^ 8) with 256.
  assert (Hm : 0 < 2 ^ (8 * Z.of_nat n)) by (apply Z.pow_pos_nonneg; lia).
  rewrite Z.rem_mul_r by lia.
  set (y := (z / 256) mod 2 ^ (8 * Z.of_nat n)).
  replace ((z mod 256 + 256 * y) mod 256) with (z mod 256)
    by (Z.div_mod_to_equations; lia).
  replace ((z mod 256 + 256 * y) / 256) with y
    by (Z.div_mod_to_equations; lia).
  unfold y. now rewrite IH.
Qed.

(** The sign bit of an n-byte value splits its range in two halves. *)
Lemma top_bit (u k : Z) :
  0 < k -> 0 <= u < 2 ^ k ->
  if Z.testbit u (k - 1) then 2 ^ (k - 1) <= u else u < 2 ^ (k - 1).
Proof.
  intros Hk Hu. pose proof (two_pow_split k Hk) as Hp.
  assert (Hpos : 0 < 2 ^ (k - 1)) by (apply Z.pow_pos_nonneg; lia).
  destruct (Z.testbit u (k - 1)) eqn:T.
  - apply Z.testbit_true in T; [|lia].
    destruct (Z_lt_le_dec u (2 ^ (k - 1))) as [Hlt|Hge]; [|exact Hge].
    rewrite Z.div_small in T by lia. discriminate.
  - apply Z.testbit_false in T; [|lia].
    destruct (Z_lt_le_dec u (2 ^ (k - 1))) as [Hlt|Hge]; [exact Hlt|].
    assert (D : u / 2 ^ (k - 1) = 1).
    { symmetry. apply Z.div_unique with (r := u - 2 ^ (k - 1)); lia. }
    rewrite D in T. discriminate.
Qed.

(** X6: every byte string decodes to an integer that is representable in as
    many bytes, and encoding that integer at that width with the same
    signedness gives the byte string back: the codec loses nothing, on the
    empty string too. *)
Theorem wire_decode_then_encode (data : bytes) (sgn : bool) :
  let n := Z.of_nat (List.length data) in
  representable (wire_decode_int data sgn) n sgn /\
  wire_encode_int (PyInt (wire_decode_int data sgn)) n sgn = Ok data.
Proof.
  intros n.
  pose proof (le_value_range data) as Hu. fold n in Hu.
  assert (Hr : representable (wire_decode_int data sgn) n sgn /\
               le_bytes (List.length data) (wire_decode_int data sgn) = data).
  { unfold wire_decode_int, int_from_bytes, representable. fold n.
    destruct sgn; cbn [andb].
    - destruct (Z.eq_dec n 0) as [Hn|Hn].
      + assert (data = []) as -> by (destruct data; [reflexivity|cbn in n; lia]).
        cbn. repeat split; lia.
      + assert (Hk : 0 < 8 * n) by lia.
        pose proof (top_bit (le_value data) (8 * n) Hk Hu) as Ht.
        pose proof (two_pow_split (8 * n) Hk) as Hp.
        destruct (Z.testbit (le_value data) (8 * n - 1)).
        * split; [split; lia|].
          rewrite <- le_bytes_mod.
          replace ((le_value data - 2 ^ (8 * n)) mod 2 ^ (8 * Z.of_nat (List.length data)))
            with (le_value data).
          { apply le_bytes_le_value. }
          fold n. apply Z.mod_unique with (q := -1); lia.
        * split; [split; lia|apply le_bytes_le_value].
    - split; [split; lia|apply le_bytes_le_value]. }
  destruct Hr as [Hr Hb]. split; [exact Hr|].
  unfold wire_encode_int. rewrite int_to_bytes_ok.
  - unfold n. now rewrite Nat2Z.id, Hb.
  - lia.
  - destruct (Z.eq_dec n 0) as [Hn|Hn].
    + assert (data = []) as -> by (destruct data; [reflexivity|cbn in n; lia]).
      destruct sgn; reflexivity.
    + apply to_bytes_accepts_spec; [lia| |exact Hr].
      intros [= H _ _]. contradiction.
Qed.

(** ** The clock *)

(** X7: timestamp() is the clock reading rounded toward zero to a whole
    second: for a reading q >= 0 it is the t with t <= q < t + 1, for a
    reading q <= 0 the t with t - 1 < q <= t; and it takes exactly one
    reading of the clock. *)
Theorem timestamp_truncates (w : world) :
  let q := clock w (ticks w) in
  exists t,
    timestamp w = (Ok t, set_ticks (S (ticks w)) w) /\
    ((0 <= q)%Q -> (inject_Z t <= q)%Q /\ (q < inject_Z (t + 1))%Q) /\
    ((q <= 0)%Q -> (inject_Z (t - 1) < q)%Q /\ (q <= inject_Z t)%Q).
Proof.
  intros q. exists (trunc q). split; [reflexivity|].
  destruct q as [n d]. unfold trunc, Qle, Qlt, inject_Z. cbn [Qnum Qden].
  rewrite !Z.mul_1_r.
  pose proof (Pos2Z.is_pos d) as Hd.
  split; intros Hn.
  - rewrite Z.mul_0_l in Hn. rewrite Z.quot_div_nonneg by lia.
    split.
    + rewrite Z.mul_comm. apply Z.mul_div_le. lia.
    + rewrite Z.mul_comm. apply Z.mul_succ_div_gt. lia.
  - rewrite Z.mul_0_l in Hn.
    assert (E : Z.quot n (Z.pos d) = - (- n / Z.pos d)).
    { rewrite <- (Z.opp_involutive n) at 1.
      rewrite Z.quot_opp_l by lia. now rewrite Z.quot_div_nonneg by lia. }
    rewrite E.
    pose proof (Z.mul_div_le (- n) (Z.pos d) Hd).
    pose proof (Z.mul_succ_div_gt (- n) (Z.pos d) Hd).
    split; nia.
Qed.

(** ** More on the exchange *)

Lemma read_status_decodes (evs later : list event) :
  read_chunk 1 evs = (Ok [xff], later) ->
  forall status later', read_chunk 1 evs = (Ok status, later') ->
  wire_decode_int status false = FLAG_ALL_GOOD.
Proof.
  intros R status later' R'. rewrite R in R'. injection R' as <- _. reflexivity.
Qed.

(** Inverting a path and the reply inside it. *)
Ltac invert_path H :=
  inversion H; subst; clear H;
  repeat match goal with
         | R : toggle_reply _ _ |- _ => inversion R; subst; clear R
         | R : keygen_reply _ _ _ _ _ |- _ => inversion R; subst; clear R
         end.

Ltac same_reads :=
  repeat match goal with
         | R1 : read_chunk ?n ?evs = _, R2 : read_chunk ?n ?evs = _ |- _ =>
             rewrite R1 in R2; injection R2 as; subst
         end.

Ltac same_kind :=
  repeat match goal with
         | H : reqtype_of _ = reqtype_of _ |- _ =>
             apply reqtype_of_inj in H; subst
         end.

(** Closing the paths that the hypotheses at hand rule out. *)
Ltac off_path :=
  same_kind; same_reads;
  try congruence;
  try lia;
  try (exfalso;
       match goal with
       | H : forall k, _ <> reqtype_of k |- _ => eapply H; reflexivity
       | H : wire_decode_int _ false <> _ |- _ => apply H; reflexivity
       end).

(** X8: a request succeeds whenever nothing fails and the reply validates:
    with the timestamp in the signed 64-bit range, no socket, TLS or file
    error, and a validated reply, ssl_request returns EXIT_SUCCESS. *)
Theorem ssl_request_succeeds_when_validated (reqtype : string) (w : world) :
  - 2 ^ 63 <= next_timestamp w < 2 ^ 63 ->
  no_io_error reqtype w ->
  validated reqtype w ->
  fst (ssl_request reqtype w) = Ok EXIT_SUCCESS.
Proof.
  intros Hrange (Hw & Hc & Hs & Hkey) Hval.
  destruct (ssl_request_run reqtype w) as (r & kf & n & sent & Hp & Heq).
  rewrite Heq. cbn [fst]. clear Heq.
  assert (Henc : wire_encode_int (PyInt (next_timestamp w)) 8 true
                 = Ok (le_bytes 8 (next_timestamp w)))
    by (apply wire_encode_timestamp; exact Hrange).
  destruct Hval as [[Hk (later & R)]|[Hk (evs1 & tdata & evs2 & R1 & R2 & F)]].
  - assert (Hr : exists k, reqtype = reqtype_of k /\ k <> KeyRotation).
    { destruct Hk as [->| ->]; [exists Open|exists Close]; split;
        (reflexivity || discriminate). }
    destruct Hr as (k0 & -> & Hk0). clear Hk Hkey.
    invert_path Hp; off_path; reflexivity.
  - subst reqtype.
    destruct (Hkey eq_refl)
      as (Hio & nk & evs1' & tdata' & evs2' & later & R1' & R2' & R3).
    change "keygen"%string with (reqtype_of KeyRotation) in Hp.
    invert_path Hp; off_path.
    match goal with
    | H : (_, _) = match key_file_io w with _ => _ end |- _ =>
        rewrite Hio in H; injection H as -> _
    end.
    reflexivity.
Qed.

Lemma ssl_request_succeeds_when_validated_witness :
  let w := sample_world (keygen_peer 3 (repeat x41 32)) in
  - 2 ^ 63 <= next_timestamp w < 2 ^ 63 /\
  no_io_error "keygen" w /\
  validated "keygen" w /\
  fst (ssl_request "keygen" w) = Ok EXIT_SUCCESS.
Proof.
  intros w.
  assert (Hr : - 2 ^ 63 <= next_timestamp w < 2 ^ 63).
  { change (next_timestamp w) with 1700000000. lia. }
  assert (Hk : received_key w (repeat x41 32)).
  { eexists _, _, _, _. vm_compute. repeat split; reflexivity. }
  assert (Hio : no_io_error "keygen" w).
  { split; [reflexivity|]. split; [reflexivity|]. split; [reflexivity|].
    intros _. split; [reflexivity|]. exists (repeat x41 32). exact Hk. }
  assert (Hv : validated "keygen" w).
  { right. split; [reflexivity|].
    exists [Chunk (le_bytes 8 1699999998 ++ repeat x41 32)],
           (le_bytes 8 1699999998), [Chunk (repeat x41 32)].
    split; [vm_compute; reflexivity|].
    split; [vm_compute; reflexivity|].
    vm_compute. discriminate. }
  split; [exact Hr|]. split; [exact Hio|]. split; [exact Hv|].
  apply (ssl_request_succeeds_when_validated "keygen" w Hr Hio Hv).
Defined.

Lemma length_request_bytes (k : RequestKind) (w : world) :
  List.length (request_bytes k w) = 41%nat.
Proof.
  unfold request_bytes. cbn [List.length].
  rewrite length_app, length_le_bytes, length_hmac_sha256. reflexivity.
Qed.

(** X9: whatever happens, a request closes its connection and leaves the
    later ones alone, reads the clock at most twice, and puts at most one
    message on the wire, of 41 bytes; it sends nothing when the connection
    cannot be made or the request type is unknown. *)
Theorem ssl_request_sends_at_most_once (reqtype : string) (w : world) :
  let w' := snd (ssl_request reqtype w) in
  conns w' = tl (conns w) /\
  (ticks w <= ticks w' <= ticks w + 2)%nat /\
  exists sent,
    wire w' = sent ++ wire w /\
    (List.length sent <= 1)%nat /\
    Forall (fun m => List.length m = 41%nat) sent /\
    (connect_error (current_conn w) <> None -> sent = []) /\
    ((forall k, reqtype <> reqtype_of k) -> sent = []).
Proof.
  destruct (ssl_request_run reqtype w) as (r & kf & n & sent & Hp & Heq).
  rewrite Heq. cbn [snd world_after conns ticks wire].
  split; [reflexivity|].
  assert (Hn : (n <= 2)%nat) by (invert_path Hp; lia).
  split; [lia|]. exists sent. split; [reflexivity|].
  inversion Hp; subst; cbn [List.length];
    (split; [lia|]);
    (split; [repeat constructor; apply length_request_bytes|]);
    (split; [try reflexivity; congruence|]);
    try reflexivity;
    intros Hunk; exfalso; eapply Hunk; reflexivity.
Qed.

(** X10: every request writes one INFO line when it starts.  When the
    with statement of lines 113-126 raises an Exception e, the request
    writes one WARNING line, made of str(e) for that very e, and returns
    EXIT_FAILURE; when the with statement returns, or control-c ends it,
    the request writes nothing more. *)
Theorem ssl_request_logs (reqtype : string) (w : world) :
  let w0 := set_logbook (sent_line reqtype w :: logbook w) w in
  exists r w1,
    with_ssl_socket (exchange reqtype) w0 = (r, w1) /\
    fst (ssl_request reqtype w) = request_result r /\
    logbook (snd (ssl_request reqtype w)) =
      match r with
      | Ok _ => []
      | Raise e => if is_Exception e then [failed_line reqtype w e] else []
      end ++ sent_line reqtype w :: logbook w.
Proof.
  intros w0.
  destruct (exchange_run reqtype w (sent_line reqtype w :: logbook w))
    as (r & kf & n & sent & _ & Heq).
  eexists r, _. split; [exact Heq|].
  unfold ssl_request, try_except_Exception, bind, log, logging_info,
    logging_warning, ret.
  unfold sent_line in Heq. rewrite Heq.
  destruct r as [[]|e]; [split; reflexivity|].
  cbn [request_result]. destruct (is_Exception e); split; reflexivity.
Qed.

(** The text logged when the key file cannot be opened names the file. *)
Example key_file_error_logged :
  let w := set_key_file_io (OpenFails PermissionDenied)
             (sample_world (keygen_peer 3 (repeat x41 32))) in
  hd_error (logbook (snd (ssl_request "keygen" w))) =
    Some (WARNING,
          (tab ++ "[Tue Nov  3 12:00:00 2026]" ++ tab ++
           "[Errno 13] Permission denied: './psk.b64' during keygen request")%string).
Proof. vm_compute. reflexivity. Qed.

(** X11: a key-rotation reply with the right ack byte and a timestamp more
    than MAX_AGE seconds old is rejected: the request was sent, the clock
    was read twice, the key is never read, the key file is untouched, the
    log says "client received stale response", and the result is
    EXIT_FAILURE. *)
Theorem stale_response_rejected (w : world) (evs1 evs2 : list event)
        (tdata : bytes) :
  wrap_error (current_conn w) = None ->
  connect_error (current_conn w) = None ->
  send_error (current_conn w) = None ->
  - 2 ^ 63 <= next_timestamp w < 2 ^ 63 ->
  read_chunk 1 (incoming (current_conn w)) = (Ok [x55], evs1) ->
  read_chunk 8 evs1 = (Ok tdata, evs2) ->
  MAX_AGE < verify_time w - wire_decode_int tdata true ->
  ssl_request "keygen" w =
  (Ok EXIT_FAILURE,
   world_after "keygen" w (Raise stale_response) (key_file w) 2
               [request_bytes KeyRotation w]).
Proof.
  intros Hw Hc Hs Hrange R1 R2 Hstale.
  destruct (ssl_request_run "keygen" w) as (r & kf & n & sent & Hp & Heq).
  assert (Henc : wire_encode_int (PyInt (next_timestamp w)) 8 true
                 = Ok (le_bytes 8 (next_timestamp w)))
    by (apply wire_encode_timestamp; exact Hrange).
  change "keygen"%string with (reqtype_of KeyRotation) in Hp.
  invert_path Hp; off_path. exact Heq.
Qed.

Lemma stale_response_rejected_witness :
  let w := sample_world (keygen_peer 11 (repeat x41 32)) in
  let tdata := le_bytes 8 1699999990 in
  let evs1 := [Chunk (tdata ++ repeat x41 32)] in
  let evs2 := [Chunk (repeat x41 32)] in
  wrap_error (current_conn w) = None /\
  connect_error (current_conn w) = None /\
  send_error (current_conn w) = None /\
  - 2 ^ 63 <= next_timestamp w < 2 ^ 63 /\
  read_chunk 1 (incoming (current_conn w)) = (Ok [x55], evs1) /\
  read_chunk 8 evs1 = (Ok tdata, evs2) /\
  MAX_AGE < verify_time w - wire_decode_int tdata true /\
  ssl_request "keygen" w =
  (Ok EXIT_FAILURE,
   world_after "keygen" w (Raise stale_response) (key_file w) 2
               [request_bytes KeyRotation w]).
Proof.
  intros w tdata evs1 evs2.
  assert (Hw : wrap_error (current_conn w) = None) by reflexivity.
  assert (Hc : connect_error (current_conn w) = None) by reflexivity.
  assert (Hs : send_error (current_conn w) = None) by reflexivity.
  assert (Hr : - 2 ^ 63 <= next_timestamp w < 2 ^ 63).
  { change (next_timestamp w) with 1700000000. lia. }
  assert (R1 : read_chunk 1 (incoming (current_conn w)) = (Ok [x55], evs1))
    by reflexivity.
  assert (R2 : read_chunk 8 evs1 = (Ok tdata, evs2)) by reflexivity.
  assert (F : MAX_AGE < verify_time w - wire_decode_int tdata true).
  { change (verify_time w) with 1700000001.
    change (wire_decode_int tdata true) with 1699999990.
    unfold MAX_AGE. lia. }
  repeat (split; [assumption|]).
  apply (stale_response_rejected w evs1 evs2 tdata Hw Hc Hs Hr R1 R2 F).
Defined.

(** X12: any first answer other than the one expected byte (0xFF for open
    and close, 0x55 for keygen) is rejected as a bad response, the empty
    answer of a closed connection included: the result is EXIT_FAILURE, the
    log says "client received bad response", nothing more is read and the
    key file is untouched. *)
Theorem wrong_sentinel_rejected (k : RequestKind) (w : world) (answer : bytes)
        (later : list event) :
  wrap_error (current_conn w) = None ->
  connect_error (current_conn w) = None ->
  send_error (current_conn w) = None ->
  - 2 ^ 63 <= next_timestamp w < 2 ^ 63 ->
  read_chunk 1 (incoming (current_conn w)) = (Ok answer, later) ->
  answer <> [sentinel k] ->
  ssl_request (reqtype_of k) w =
  (Ok EXIT_FAILURE,
   world_after (reqtype_of k) w (Raise bad_response) (key_file w) 1
               [request_bytes k w]).
Proof.
  intros Hw Hc Hs Hrange R Hne.
  destruct (ssl_request_run (reqtype_of k) w)
    as (r & kf & n & sent & Hp & Heq).
  assert (Henc : wire_encode_int (PyInt (next_timestamp w)) 8 true
                 = Ok (le_bytes 8 (next_timestamp w)))
    by (apply wire_encode_timestamp; exact Hrange).
  invert_path Hp; off_path; try exact Heq;
    exfalso; apply Hne;
    match goal with
    | D : wire_decode_int ?a false = _, R' : read_chunk 1 _ = (Ok ?a, _) |- _ =>
        rewrite (sentinel_byte _ _ _ _ R' D) by discriminate
    end;
    try reflexivity;
    match goal with
    | N : ?k0 <> KeyRotation |- _ =>
        destruct k0; [reflexivity|reflexivity|contradiction]
    end.
Qed.

Lemma wrong_sentinel_rejected_witness :
  let w := sample_world (mk_conn None None None []) in
  wrap_error (current_conn w) = None /\
  connect_error (current_conn w) = None /\
  send_error (current_conn w) = None /\
  - 2 ^ 63 <= next_timestamp w < 2 ^ 63 /\
  read_chunk 1 (incoming (current_conn w)) = (Ok [], []) /\
  [] <> [sentinel Open] /\
  ssl_request (reqtype_of Open) w =
  (Ok EXIT_FAILURE,
   world_after (reqtype_of Open) w (Raise bad_response) (key_file w) 1
               [request_bytes Open w]).
Proof.
  intros w.
  assert (Hw : wrap_error (current_conn w) = None) by reflexivity.
  assert (Hc : connect_error (current_conn w) = None) by reflexivity.
  assert (Hs : send_error (current_conn w) = None) by reflexivity.
  assert (Hr : - 2 ^ 63 <= next_timestamp w < 2 ^ 63).
  { change (next_timestamp w) with 1700000000. lia. }
  assert (R : read_chunk 1 (incoming (current_conn w)) = (Ok [], []))
    by reflexivity.
  assert (N : [] <> [sentinel Open]) by discriminate.
  repeat (split; [assumption|]).
  apply (wrong_sentinel_rejected Open w [] [] Hw Hc Hs Hr R N).
Defined.

(** X13: only a key rotation can touch the key file: after a request of any
    other type, successful or not, the key file is what it was. *)
Theorem other_requests_keep_key_file (reqtype : string) (w : world) :
  reqtype <> "keygen"%string ->
  key_file (snd (ssl_request reqtype w)) = key_file w.
Proof.
  intros Hne.
  destruct (list_eq_dec Byte.byte_eq_dec
              (key_file (snd (ssl_request reqtype w))) (key_file w))
    as [E|N]; [exact E|exfalso].
  apply key_file_changes_only_when_validated in N as (_ & Hk & _).
  contradiction.
Qed.

Lemma other_requests_keep_key_file_witness :
  let w := sample_world (status_peer xff) in
  "open"%string <> "keygen"%string /\
  key_file (snd (ssl_request "open" w)) = key_file w.
Proof.
  intros w.
  assert (H : "open"%string <> "keygen"%string) by discriminate.
  split; [exact H|].
  apply (other_requests_keep_key_file "open" w H).
Defined.

Lemma wire_encode_timestamp_overflow (t : Z) :
  ~ (- 2 ^ 63 <= t < 2 ^ 63) ->
  wire_encode_int (PyInt t) 8 true =
  Raise (OverflowError "int too big to convert").
Proof.
  intros Hout. unfold wire_encode_int, int_to_bytes.
  cbn [Z.ltb Z.compare negb andb]. unfold to_bytes_accepts. cbn [Z.eqb].
  change (8 * 8 - 1) with 63.
  destruct (andb _ _) eqn:E; [|reflexivity].
  apply andb_true_iff in E. rewrite Z.leb_le, Z.ltb_lt in E. lia.
Qed.

(** X14: when the clock shows a second outside the signed 64-bit range the
    timestamp cannot be encoded: the request is not built, nothing is sent
    on the connection just opened, the OverflowError is logged and the
    result is EXIT_FAILURE. *)
Theorem clock_out_of_range_sends_nothing (k : RequestKind) (w : world) :
  wrap_error (current_conn w) = None ->
  connect_error (current_conn w) = None ->
  ~ (- 2 ^ 63 <= next_timestamp w < 2 ^ 63) ->
  ssl_request (reqtype_of k) w =
  (Ok EXIT_FAILURE,
   world_after (reqtype_of k) w
               (Raise (OverflowError "int too big to convert"))
               (key_file w) 1 []).
Proof.
  intros Hw Hc Hout.
  destruct (ssl_request_run (reqtype_of k) w)
    as (r & kf & n & sent & Hp & Heq).
  pose proof (wire_encode_timestamp_overflow _ Hout) as Henc.
  inversion Hp; subst; off_path; try contradiction.
  match goal with
  | H : wire_encode_int _ 8 true = Raise ?e |- _ =>
      rewrite Henc in H; injection H as <-
  end.
  exact Heq.
Qed.

Lemma clock_out_of_range_sends_nothing_witness :
  let w := set_ticks 7 (mk_world sample_key (b64e sample_key) WriteOk
                          (fun _ => inject_Z (2 ^ 63)) 0 "" [status_peer xff]
                          [] []) in
  wrap_error (current_conn w) = None /\
  connect_error (current_conn w) = None /\
  ~ (- 2 ^ 63 <= next_timestamp w < 2 ^ 63) /\
  ssl_request (reqtype_of Open) w =
  (Ok EXIT_FAILURE,
   world_after (reqtype_of Open) w
               (Raise (OverflowError "int too big to convert"))
               (key_file w) 1 []).
Proof.
  intros w.
  assert (Hw : wrap_error (current_conn w) = None) by reflexivity.
  assert (Hc : connect_error (current_conn w) = None) by reflexivity.
  assert (Ho : ~ (- 2 ^ 63 <= next_timestamp w < 2 ^ 63)).
  { change (next_timestamp w) with (2 ^ 63). lia. }
  repeat (split; [assumption|]).
  apply (clock_out_of_range_sends_nothing Open w Hw Hc Ho).
Defined.

(** ** The display loop *)

Lemma interrupted_current (w : world) :
  interrupted (current_conn w) -> Exists interrupted (conns w).
Proof.
  unfold current_conn. destruct (conns w) as [|c rest]; cbn [hd].
  - intros [H|[H|[H|H]]]; try discriminate H. destruct H.
  - intros H. now left.
Qed.

Lemma Exists_tl {A} (P : A -> Prop) (l : list A) :
  Exists P (tl l) -> Exists P l.
Proof. destruct l; cbn [tl]; intros H; [exact H|now right]. Qed.

Lemma skipn_S_tl {A} (n : nat) (l : list A) :
  skipn (S n) l = skipn n (tl l).
Proof. destruct l; cbn [tl skipn]; [now rewrite skipn_nil|reflexivity]. Qed.

(** What an open or close request leaves of the world; only control-c
    makes it raise. *)
Lemma toggle_request_frame (k : RequestKind) (w : world) :
  k <> KeyRotation ->
  exists out w1,
    ssl_request (reqtype_of k) w = (out, w1) /\
    (forall e, out = Raise e ->
               e = KeyboardInterrupt /\ interrupted (current_conn w)) /\
    conns w1 = tl (conns w) /\
    KEY w1 = KEY w /\ key_file w1 = key_file w /\
    exists sent, wire w1 = sent ++ wire w /\
                 Forall (toggle_request (KEY w)) sent.
Proof.
  intros Hk.
  destruct (ssl_request_run (reqtype_of k) w)
    as (r & kf & n & sent & Hp & Heq).
  exists (request_result r), (world_after (reqtype_of k) w r kf n sent).
  split; [exact Heq|]. cbn [world_after KEY key_file wire conns].
  split.
  { intros e He. destruct r as [[]|e0]; [discriminate He|].
    cbn [request_result] in He. destruct (is_Exception e0) eqn:Hx;
      [discriminate He|].
    apply not_Exception in Hx. subst e0. injection He as <-.
    split; [reflexivity|]. exact (exchange_path_interrupt _ _ _ _ _ Hp). }
  split; [reflexivity|]. split; [reflexivity|].
  inversion Hp; subst; same_kind; try contradiction;
    (split; [reflexivity|]); eexists; (split; [reflexivity|]);
    repeat constructor.
  eexists _, _. split; [eassumption|reflexivity].
Qed.

Lemma log_info_frame (s : string) (w : world) :
  KEY (log_info s w) = KEY w /\ key_file (log_info s w) = key_file w /\
  wire (log_info s w) = wire w /\ conns (log_info s w) = conns w.
Proof. repeat split. Qed.

Lemma log_warning_frame (s : string) (w : world) :
  KEY (log_warning s w) = KEY w /\ key_file (log_warning s w) = key_file w /\
  wire (log_warning s w) = wire w /\ conns (log_warning s w) = conns w.
Proof. repeat split. Qed.

Lemma ncurses_write_frame (s : string) (w : world) (t : terminal) :
  KEY (fst (ncurses_write s w t)) = KEY w /\
  key_file (fst (ncurses_write s w t)) = key_file w /\
  wire (fst (ncurses_write s w t)) = wire w /\
  conns (fst (ncurses_write s w t)) = conns w /\
  calls (snd (ncurses_write s w t)) = WinAddstr s true :: WinClear :: calls t.
Proof.
  unfold ncurses_write. cbn [call addstr_error].
  destruct (addstr_error t s); repeat split.
Qed.

(** X15: truncate_log never changes the log file, however many lines it
    holds: the write of the empty string at the end of the file leaves the
    text as it is. *)
Theorem truncate_log_keeps_log (content : text) :
  truncate_log (Some content) = (Closed, Some content).
Proof.
  unfold truncate_log, file_write.
  destruct (MAX_LOG_ENTRIES <? _)%nat; [|reflexivity].
  cbn [List.length app]. rewrite Nat.add_0_r, firstn_all, skipn_all.
  now rewrite app_nil_r.
Qed.

Lemma truncate_log_closed (content : text) :
  fst (truncate_log (Some content)) = Closed.
Proof. unfold truncate_log. now destruct (_ <? _)%nat. Qed.

Section DisplayProperties.

Variable renderText : string -> string.

Let kind_of (l : locals) : RequestKind :=
  if state l =? STATE_CLOSED then Open else Close.
Let banner_of (l : locals) : string :=
  if state l =? STATE_CLOSED then BANNER_OPEN renderText
  else BANNER_CLOSE renderText.

(** One pass of the loop, in full. *)
Lemma key_pressed_run (l : locals) (w : world) (t : terminal)
      (out : result bool) (w1 : world) :
  state l = STATE_CLOSED \/ state l = STATE_OPEN ->
  ssl_request (reqtype_of (kind_of l)) w = (out, w1) ->
  key_pressed renderText l w t =
  match out with
  | Ok true =>
      (Fine (mk_locals (1 - state l) true (Some (reqtype_of (kind_of l)))),
       log_info (reqtype_of (kind_of l) ++ " request success")
                (fst (ncurses_write (banner_of l) w1 t)),
       snd (ncurses_write (banner_of l) w1 t))
  | Ok false =>
      (Fine (mk_locals (state l) false (Some (reqtype_of (kind_of l)))),
       log_warning (reqtype_of (kind_of l) ++ " request failed") w1,
       call Beep (call Flash t))
  | Raise e => (Uncaught (Propagated e), w1, t)
  end.
Proof.
  intros Hs Heq.
  unfold key_pressed, request_and_draw, kind_of, banner_of in *.
  destruct Hs as [Hs|Hs]; rewrite Hs in *;
    cbn [Z.eqb STATE_CLOSED STATE_OPEN reqtype_of] in *;
    rewrite Heq;
    (destruct out as [[|]|e];
     [destruct (ncurses_write _ _ t)| |]); reflexivity.
Qed.

(** A run of the loop: it ends at the prompt, waiting or on control-c, or
    in a request that control-c ended; each key press it handled took one
    connection. *)
Lemma main_loop_run (keys : list keypress) :
  forall (l : locals) (w : world) (t : terminal),
  state l = STATE_CLOSED \/ state l = STATE_OPEN ->
  exists e l' w' t' n,
    main_loop renderText keys l w t = (Fine e, l', w', t') /\
    (state l' = STATE_CLOSED \/ state l' = STATE_OPEN) /\
    ((n <= keys_before_interrupt keys)%nat /\
     conns w' = skipn n (conns w) /\
     (In Interrupt keys -> e = ClientExit) /\
     (e = ClientExit ->
      In Interrupt keys \/ Exists interrupted (conns w)) /\
     (~ Exists interrupted (conns w) -> n = keys_before_interrupt keys)) /\
    KEY w' = KEY w /\ key_file w' = key_file w /\
    exists sent, wire w' = sent ++ wire w /\
                 Forall (toggle_request (KEY w)) sent.
Proof.
  induction keys as [|k keys IH]; intros l w t Hs.
  - exists AwaitingKey, l, w, t, O. cbn [main_loop In keys_before_interrupt].
    split; [reflexivity|]. split; [exact Hs|].
    split.
    { split; [lia|]. split; [reflexivity|]. split; [contradiction|].
      split; [discriminate|reflexivity]. }
    split; [reflexivity|]. split; [reflexivity|].
    exists []. split; [reflexivity|constructor].
  - destruct k as [code|].
    + assert (Hk : kind_of l <> KeyRotation)
        by (unfold kind_of; destruct (state l =? STATE_CLOSED); discriminate).
      destruct (toggle_request_frame (kind_of l) w Hk)
        as (out & w1 & Hreq & Hint & Hc & HK & HF & sent & HW & HS).
      pose proof (key_pressed_run l w t out w1 Hs Hreq) as Hkey.
      cbn [main_loop keys_before_interrupt]. rewrite Hkey. clear Hkey.
      destruct out as [b|e].
      * assert (Hnext : exists l1 w2 t2,
                   match b with
                   | true =>
                       (Fine (mk_locals (1 - state l) true
                                        (Some (reqtype_of (kind_of l)))),
                        log_info (reqtype_of (kind_of l) ++ " request success")
                                 (fst (ncurses_write (banner_of l) w1 t)),
                        snd (ncurses_write (banner_of l) w1 t))
                   | false =>
                       (Fine (mk_locals (state l) false
                                        (Some (reqtype_of (kind_of l)))),
                        log_warning (reqtype_of (kind_of l) ++ " request failed")
                                    w1,
                        call Beep (call Flash t))
                   end = (Fine l1, w2, t2) /\
                   (state l1 = STATE_CLOSED \/ state l1 = STATE_OPEN) /\
                   KEY w2 = KEY w1 /\ key_file w2 = key_file w1 /\
                   wire w2 = wire w1 /\ conns w2 = conns w1).
        { destruct b; eexists _, _, _; (split; [reflexivity|]).
          - destruct (ncurses_write_frame (banner_of l) w1 t)
              as (A & B & C & D & _).
            cbn [state]. split; [|repeat split; assumption].
            unfold STATE_CLOSED, STATE_OPEN in *. lia.
          - cbn [state]. split; [exact Hs|repeat split]. }
        destruct Hnext as (l1 & w2 & t2 & -> & Hs1 & HK2 & HF2 & HW2 & Hc2).
        destruct (IH l1 w2 t2 Hs1)
          as (e & l' & w' & t' & n & Hrun & Hs' & Hkeys & HK' & HF'
              & sent' & HW' & HS').
        destruct Hkeys as (Hn & Hconns & Hin & Hexit & Hall).
        rewrite Hc2, Hc in Hconns, Hexit, Hall.
        exists e, l', w', t', (S n). split; [exact Hrun|].
        split; [exact Hs'|]. split.
        { split; [lia|]. split; [now rewrite skipn_S_tl|].
          split.
          { cbn [In]. intros [H|H]; [discriminate H|auto]. }
          split.
          { intros He. destruct (Hexit He) as [H|H];
              [left; now right|right; now apply Exists_tl]. }
          intros Hno. f_equal. apply Hall. intros H.
          apply Hno. now apply Exists_tl. }
        split; [congruence|]. split; [congruence|].
        exists (sent' ++ sent). split.
        -- rewrite HW', HW2, HW. apply app_assoc.
        -- apply Forall_app. split; [|exact HS].
           rewrite HK2, HK in HS'. exact HS'.
      * destruct (Hint e eq_refl) as [-> Hi].
        apply interrupted_current in Hi.
        cbn [is_KeyboardInterrupt].
        exists ClientExit, l, (log_info "client exit" w1), t, 1%nat.
        split; [reflexivity|]. split; [exact Hs|]. split.
        { split; [lia|]. split.
          { cbn [log_info]. rewrite skipn_S_tl. cbn [skipn]. exact Hc. }
          split; [reflexivity|]. split; [now right|].
          intros Hno. contradiction. }
        split; [exact HK|]. split; [exact HF|].
        exists sent. split; [exact HW|exact HS].
    + exists ClientExit, l, (log_info "client exit" w), t, O.
      cbn [main_loop In keys_before_interrupt].
      split; [reflexivity|]. split; [exact Hs|]. split.
      { split; [lia|]. split; [reflexivity|]. split; [reflexivity|].
        split; [intros _; left; now left|reflexivity]. }
      split; [reflexivity|]. split; [reflexivity|].
      exists []. split; [reflexivity|constructor].
Qed.



(** What a run of main leaves of the world, however it ends. *)
Lemma main_frame (keys : list keypress) (w : world) (t : terminal) :
  exists r l' w' t',
    main renderText keys w t = (r, l', w', t') /\
    KEY w' = KEY w /\ key_file w' = key_file w /\
    exists sent, wire w' = sent ++ wire w /\
                 Forall (toggle_request (KEY w)) sent.
Proof.
  unfold main. cbn [call curs_set_error addstr_error].
  destruct (curs_set_error t).
  { eexists _, _, _, _. split; [reflexivity|].
    split; [reflexivity|]. split; [reflexivity|].
    exists []. split; [reflexivity|constructor]. }
  destruct (addstr_error t PROMPT).
  { eexists _, _, _, _. split; [reflexivity|].
    split; [reflexivity|]. split; [reflexivity|].
    exists []. split; [reflexivity|constructor]. }
  edestruct (main_loop_run keys (mk_locals STATE_CLOSED true None))
    as (e & l' & w' & t' & n & Hrun & _ & _ & HK & HF & sent & HW & HS).
  { left. reflexivity. }
  eexists _, _, _, _. split; [exact Hrun|].
  split; [exact HK|]. split; [exact HF|].
  exists sent. split; [exact HW|exact HS].
Qed.

Lemma toggle_request_authenticated (key msg : bytes) :
  toggle_request key msg -> authenticated_with key msg.
Proof. intros (k & t & _ & E). exists k, t. exact E. Qed.

(** The program from the loading of the key on, when the key file decodes
    and the log file is there. *)
Lemma program_run (argv : list string) (content : text)
      (keys : list keypress) (w : world) (t : terminal) (key : bytes) :
  b64d (key_file w) = Decoded key ->
  exists e out w' t',
    program renderText argv (Some content) keys w t = (e, out, w', t') /\
    KEY w' = key /\
    (str_in "--keygen" argv = false -> key_file w' = key_file w) /\
    exists sent, wire w' = sent ++ wire w /\
                 Forall (authenticated_with key) sent.
Proof.
  intros Hkey. unfold program, load_key, read_key_from_file.
  rewrite Hkey.
  pose proof (truncate_log_closed content) as Hlog.
  destruct (truncate_log (Some content)) as [o lf].
  cbn [fst] in Hlog. subst o.
  destruct (str_in "-h" argv || str_in "--help" argv).
  { eexists _, _, _, _. split; [reflexivity|]. split; [reflexivity|].
    split; [reflexivity|]. exists []. split; [reflexivity|constructor]. }
  assert (Hreq : exists out w1,
             (if str_in "--keygen" argv
              then ssl_request "keygen" (set_KEY key w)
              else (Ok EXIT_SUCCESS, set_KEY key w)) = (out, w1) /\
             KEY w1 = key /\
             (str_in "--keygen" argv = false -> key_file w1 = key_file w) /\
             exists sent, wire w1 = sent ++ wire w /\
                          Forall (authenticated_with key) sent).
  { destruct (str_in "--keygen" argv).
    - destruct (ssl_request_keeps_key "keygen" (set_KEY key w))
        as (b & w1 & E & HK & sent & HW & HS).
      exists b, w1. split; [exact E|]. split; [exact HK|].
      split; [discriminate|]. exists sent. split; [exact HW|exact HS].
    - eexists _, _. split; [reflexivity|]. split; [reflexivity|].
      split; [reflexivity|]. exists []. split; [reflexivity|constructor]. }
  destruct Hreq as (out & w1 & -> & HK1 & HF1 & sent1 & HW1 & HS1).
  destruct out as [b|e].
  2: { eexists _, _, _, _. split; [reflexivity|]. split; [exact HK1|].
       split; [exact HF1|]. exists sent1. split; [exact HW1|exact HS1]. }
  destruct (main_frame keys w1 t)
    as (r & l' & w' & t' & Hmain & HK & HF & sent & HW & HS).
  rewrite Hmain.
  assert (Hall : KEY w' = key /\
                 (str_in "--keygen" argv = false ->
                  key_file w' = key_file w) /\
                 exists sent, wire w' = sent ++ wire w /\
                              Forall (authenticated_with key) sent).
  { split; [congruence|]. split; [intros E; rewrite HF; auto|].
    exists (sent ++ sent1). split.
    - rewrite HW, HW1. apply app_assoc.
    - apply Forall_app. split; [|exact HS1].
      rewrite HK1 in HS.
      eapply Forall_impl; [|exact HS].
      apply toggle_request_authenticated. }
  destruct r as [[|]|e]; eexists _, _, _, _; (split; [reflexivity|exact Hall]).
Qed.

(** X18: the display loop never touches the key in memory or the key
    file, and everything it sends is an open or close request
    authenticated with the key in memory; this holds however main ends. *)
Theorem main_sends_only_toggles (keys : list keypress) (w : world)
    (t : terminal) :
  exists r l' w' t',
    main renderText keys w t = (r, l', w', t') /\
    KEY w' = KEY w /\ key_file w' = key_file w /\
    exists sent, wire w' = sent ++ wire w /\
                 Forall (toggle_request (KEY w)) sent.
Proof. exact (main_frame keys w t). Qed.

(** X19: everything a run of the program sends is authenticated with the
    key that the key file held when the program started, also after a key
    rotation of the same run replaced the key file. *)
Theorem program_uses_startup_key (argv : list string)
    (log_file : option text) (keys : list keypress) (w : world)
    (t : terminal) (key : bytes) :
  b64d (key_file w) = Decoded key ->
  exists e out w' t',
    program renderText argv log_file keys w t = (e, out, w', t') /\
    KEY w' = key /\
    exists sent, wire w' = sent ++ wire w /\
                 Forall (authenticated_with key) sent.
Proof.
  intros Hkey. destruct log_file as [content|].
  - destruct (program_run argv content keys w t key Hkey)
      as (e & out & w' & t' & E & HK & _ & HS).
    exists e, out, w', t'. split; [exact E|]. split; [exact HK|exact HS].
  - unfold program, load_key, read_key_from_file. rewrite Hkey.
    cbn [truncate_log]. eexists _, _, _, _. split; [reflexivity|].
    split; [reflexivity|]. exists []. split; [reflexivity|constructor].
Qed.

(** X20: without --keygen on the command line a run of the program leaves
    the key file as it found it, whatever the peers answer. *)
Theorem program_without_keygen_keeps_key_file (argv : list string)
    (log_file : option text) (keys : list keypress) (w : world)
    (t : terminal) :
  str_in "--keygen" argv = false ->
  key_file (final_world (program renderText argv log_file keys w t)) =
  key_file w.
Proof.
  intros Hflag.
  destruct (b64d (key_file w)) as [key|e] eqn:Hkey.
  - destruct log_file as [content|].
    + destruct (program_run argv content keys w t key Hkey)
        as (e & out & w' & t' & E & _ & HF & _).
      rewrite E. exact (HF Hflag).
    + unfold program, load_key, read_key_from_file. rewrite Hkey.
      reflexivity.
  - unfold program, load_key, read_key_from_file. rewrite Hkey.
    reflexivity.
Qed.

(** X21: without a log file the program stops with a traceback before it
    sends, logs or draws anything, whatever the command line, also when it
    only asks for help. *)
Theorem program_needs_log_file (argv : list string) (keys : list keypress)
    (w : world) (t : terminal) :
  exists e w',
    program renderText argv None keys w t = (Traceback e, [], w', t) /\
    wire w' = wire w /\ logbook w' = logbook w /\
    key_file w' = key_file w /\ conns w' = conns w.
Proof.
  unfold program, load_key.
  destruct (read_key_from_file w); cbn [truncate_log];
    eexists _, _; (split; [reflexivity|]); repeat split.
Qed.

End DisplayProperties.



Lemma program_uses_startup_key_witness :
  let argv := ["sec-lab-bot.py"; "--keygen"]%string in
  let keys := [Key 32; Interrupt] in
  let w := mk_world [] (b64e sample_key) WriteOk sample_clock 0
                    "Tue Nov  3 12:00:00 2026"
                    [keygen_peer 3 (repeat x41 32); status_peer xff] [] [] in
  let t := mk_terminal [] (fun _ => None) None in
  b64d (key_file w) = Decoded sample_key /\
  exists e out w' t',
    program (fun s => s) argv (Some []) keys w t = (e, out, w', t') /\
    KEY w' = sample_key /\
    exists sent, wire w' = sent ++ wire w /\
                 Forall (authenticated_with sample_key) sent.
Proof.
  intros argv keys w t.
  assert (H : b64d (key_file w) = Decoded sample_key)
    by (vm_compute; reflexivity).
  split; [exact H|].
  apply (program_uses_startup_key (fun s => s) argv (Some []) keys w t
                                  sample_key H).
Defined.

Lemma program_without_keygen_keeps_key_file_witness :
  let argv := ["sec-lab-bot.py"]%string in
  let keys := [Key 32; Interrupt] in
  let w := sample_world (status_peer xff) in
  let t := mk_terminal [] (fun _ => None) None in
  str_in "--keygen" argv = false /\
  key_file (final_world (program (fun s => s) argv (Some []) keys w t)) =
  key_file w.
Proof.
  intros argv keys w t.
  assert (H : str_in "--keygen" argv = false) by reflexivity.
  split; [exact H|].
  apply (program_without_keygen_keeps_key_file (fun s => s) argv (Some [])
                                               keys w t H).
Defined.
